(** * C++ON header generator: template expansion

    A shallow embedding of [scripts/generate_uber_header.py] and of its
    predecessor [scripts/generate_uber_header_old.py], and the properties of
    the template-expansion engine stated in the specification.

    Conventions of the embedding.
    - A Python [str] is a [string]; a character is a code point below 256.
    - A Python [dict] that is only looked up is a [gmap]; the header registry,
      which the script also iterates in insertion order, is an association
      list with one binding per key.
    - A Python [set] is a [gset].
    - The regular expressions of the scripts are terms of a small syntax of
      patterns, run by a backtracking matcher that follows the order in which
      Python's [re] explores alternatives (greedy repetition first).
    - [process_template] calls itself to inline a header.  The embedding
      bounds the nesting of these calls by a number [depth] and returns
      [None] when the bound is reached; as many levels as there are
      registered headers are always enough.  The recursion limit of the
      interpreter is not modelled.
    - Files are the texts behind path strings: reading may raise, writing
      succeeds, and two different path strings name two different files. *)

From Stdlib Require Import Ascii String.
From stdpp Require Import gmap strings list sorting.


(** ** Python string primitives *)

Module Py.

Definition code (c : ascii) : N := N_of_ascii c.

(** [Py_UNICODE_ISSPACE] on code points below 256: the characters that
    [str.strip()] removes and that [\s] matches in a [str] pattern. *)
Definition is_space (c : ascii) : bool :=
  let n := code c in
  ((9 <=? n) && (n <=? 13) || (28 <=? n) && (n <=? 32)
   || (n =? 133) || (n =? 160))%N.

Definition char_in (chars : string) (c : ascii) : bool :=
  existsb (Ascii.eqb c) (list_ascii_of_string chars).

Fixpoint lstrip_by (p : ascii → bool) (s : string) : string :=
  match s with
  | String c s' => if p c then lstrip_by p s' else s
  | EmptyString => EmptyString
  end.

Definition rstrip_by (p : ascii → bool) (s : string) : string :=
  String.rev (lstrip_by p (String.rev s)).

(** [s.strip()] *)
Definition strip (s : string) : string :=
  rstrip_by is_space (lstrip_by is_space s).

(** [s.strip(chars)] *)
Definition strip_chars (chars s : string) : string :=
  rstrip_by (char_in chars) (lstrip_by (char_in chars) s).

(** [s.startswith(p)] and [s.endswith(p)] *)
Definition startswith (s p : string) : bool := String.prefix p s.
Definition endswith (s p : string) : bool :=
  String.prefix (String.rev p) (String.rev s).

(** [s[n:]] for a non-negative [n] *)
Fixpoint drop (n : nat) (s : string) : string :=
  match n, s with
  | S n', String _ s' => drop n' s'
  | _, _ => s
  end.

(** [sep.join(ls)] *)
Definition join (sep : string) (ls : list string) : string :=
  String.concat sep ls.

(** [s.replace(old, new)]: every occurrence of [old], left to right, not
    overlapping.  [skip] counts the characters of an occurrence still to
    be passed over. *)
Fixpoint replace_from (old new : string) (skip : nat) (s : string) : string :=
  match skip with
  | S n =>
      match s with
      | String _ s' => replace_from old new n s'
      | EmptyString => EmptyString
      end
  | O =>
      if String.prefix old s then
        new +:+ match s with
                | String _ s' => replace_from old new (String.length old - 1) s'
                | EmptyString => EmptyString
                end
      else
        match s with
        | String c s' => String c (replace_from old new 0 s')
        | EmptyString => EmptyString
        end
  end.

Fixpoint intersperse (new s : string) : string :=
  match s with
  | String c s' => String c (new +:+ intersperse new s')
  | EmptyString => EmptyString
  end.

Definition replace (old new s : string) : string :=
  match old with
  | EmptyString => new +:+ intersperse new s
  | String _ _ => replace_from old new 0 s
  end.

(** [os.path.join(a, *p)] of [posixpath] *)
Definition path_join (a : string) (p : list string) : string :=
  fold_left
    (λ path b,
      if startswith b "/" then b
      else if bool_decide (path = "") || endswith path "/" then path +:+ b
      else path +:+ "/" +:+ b)
    p a.

End Py.

(** ** The patterns of [re] that the scripts use *)

Module Re.

(** The fragment of the pattern language that occurs in the scripts:
    literal text, a greedy repetition of a character class, an optional
    group, concatenation, a capturing group and the line anchor of
    [re.MULTILINE]. *)
Inductive regex : Type :=
| Lit (s : string)
| Star (cls : ascii → bool)
| Plus (cls : ascii → bool)
| Opt (r : regex)
| Seq (r1 r2 : regex)
| Group (r : regex)
| Bol.

(** The concatenation of the items of a pattern, in order. *)
Fixpoint cat (rs : list regex) : regex :=
  match rs with
  | [] => Lit ""
  | [r] => r
  | r :: rs' => Seq r (cat rs')
  end.

(** A match object: [m.group(0)] and [m.groups()]. *)
Record rmatch : Type := { group0 : string; groups : list string }.

Definition group (m : rmatch) (i : nat) : string :=
  match i with
  | O => group0 m
  | S j => default "" (groups m !! j)
  end.

Definition is_nl (c : ascii) : bool := Ascii.eqb c "010"%char.

(** Whether the position reached after reading [l] is at the start of a
    line, given that the position before [l] was ([bol]). *)
Fixpoint bol_after (bol : bool) (l : string) : bool :=
  match l with
  | String c l' => bol_after (is_nl c) l'
  | EmptyString => bol
  end.

Fixpoint strip_prefix (l s : string) : option string :=
  match l, s with
  | EmptyString, _ => Some s
  | String a l', String b s' => if Ascii.eqb a b then strip_prefix l' s' else None
  | String _ _, EmptyString => None
  end.

(** The text between a position whose remaining input is [s] and a later
    position whose remaining input is [rest]. *)
Definition consumed (s rest : string) : string :=
  String.substring 0 (String.length s - String.length rest) s.

(** A continuation receives the line-start flag, the remaining input and
    the groups closed so far (latest first). *)
Definition kont : Type :=
  bool → string → list string → option (string * list string).

(** Greedy repetition: take one more character if possible, and fall back
    to stopping here when the rest of the pattern fails after it. *)
Fixpoint star (cls : ascii → bool) (bol : bool) (s : string)
    (gs : list string) (k : kont) : option (string * list string) :=
  match s with
  | String c s' =>
      if cls c then
        match star cls (is_nl c) s' gs k with
        | Some r => Some r
        | None => k bol s gs
        end
      else k bol s gs
  | EmptyString => k bol s gs
  end.

Fixpoint run (r : regex) (bol : bool) (s : string) (gs : list string)
    (k : kont) : option (string * list string) :=
  match r with
  | Lit l =>
      match strip_prefix l s with
      | Some s' => k (bol_after bol l) s' gs
      | None => None
      end
  | Star cls => star cls bol s gs k
  | Plus cls =>
      match s with
      | String c s' => if cls c then star cls (is_nl c) s' gs k else None
      | EmptyString => None
      end
  | Opt r1 =>
      match run r1 bol s gs k with
      | Some res => Some res
      | None => k bol s gs
      end
  | Seq r1 r2 => run r1 bol s gs (λ bol' s' gs', run r2 bol' s' gs' k)
  | Group r1 => run r1 bol s gs (λ bol' s' gs', k bol' s' (consumed s s' :: gs'))
  | Bol => if bol then k bol s gs else None
  end.

(** The match of [r] that starts exactly at the current position. *)
Definition exec (r : regex) (bol : bool) (s : string) : option rmatch :=
  match run r bol s [] (λ _ rest gs, Some (rest, gs)) with
  | Some (rest, gs) => Some {| group0 := consumed s rest; groups := rev gs |}
  | None => None
  end.

(** The scan shared by [re.finditer], [re.search] and [re.sub]: the text
    cut into the characters that belong to no match and the matches, from
    left to right.  After a match the scan resumes behind it. *)
Fixpoint pieces_from (r : regex) (bol : bool) (skip : nat) (s : string)
    : list (ascii + rmatch) :=
  match skip with
  | S n =>
      match s with
      | String c s' => pieces_from r (is_nl c) n s'
      | EmptyString => []
      end
  | O =>
      match exec r bol s with
      | Some m =>
          inr m ::
          match s with
          | String c s' =>
              match String.length (group0 m) with
              | O => inl c :: pieces_from r (is_nl c) 0 s'
              | S n => pieces_from r (is_nl c) n s'
              end
          | EmptyString => []
          end
      | None =>
          match s with
          | String c s' => inl c :: pieces_from r (is_nl c) 0 s'
          | EmptyString => []
          end
      end
  end.

Definition pieces (r : regex) (s : string) : list (ascii + rmatch) :=
  pieces_from r true 0 s.

Fixpoint matches_of (ps : list (ascii + rmatch)) : list rmatch :=
  match ps with
  | inr m :: ps' => m :: matches_of ps'
  | inl _ :: ps' => matches_of ps'
  | [] => []
  end.

(** [re.finditer(r, s)] *)
Definition finditer (r : regex) (s : string) : list rmatch :=
  matches_of (pieces r s).

(** [re.search(r, s)] *)
Definition search (r : regex) (s : string) : option rmatch :=
  head (finditer r s).

Fixpoint splice (repl : rmatch → string) (ps : list (ascii + rmatch)) : string :=
  match ps with
  | inr m :: ps' => repl m +:+ splice repl ps'
  | inl c :: ps' => String c (splice repl ps')
  | [] => EmptyString
  end.

(** [re.sub(r, repl, s)] *)
Definition sub (r : regex) (repl : rmatch → string) (s : string) : string :=
  splice repl (pieces r s).

End Re.

(** ** What both scripts share: configuration, files, tag grammar *)

Definition dquote : string := String "034"%char EmptyString.
Definition squote : string := String "039"%char EmptyString.
Definition newline : string := String "010"%char EmptyString.

(** [config['fragments']]: fragment name to its lines. *)
Abbreviation fragment_store := (gmap string (list string)).

(** [config['headers']]: symbolic header name to template file name, in the
    order of the configuration document. *)
Abbreviation header_registry := (list (string * string)).

Record config : Type := {
  fragments : fragment_store;
  headers : header_registry;
}.

(** [name in headers] and [headers[name]] *)
Fixpoint header_file (hs : header_registry) (name : string) : option string :=
  match hs with
  | (k, v) :: hs' => if bool_decide (k = name) then Some v else header_file hs' name
  | [] => None
  end.

(** The files the run can see.  Reading a path gives its text ([inl]) or
    raises an exception whose [str(e)] is the given message ([inr]); the
    choice of encoding in [read_file] is not modelled. *)
Definition filesystem : Type := string → string + string.

Definition read_file (fs : filesystem) (path : string) : string + string := fs path.

Definition write_file (fs : filesystem) (path content : string) : filesystem :=
  λ p, if bool_decide (p = path) then inl content else fs p.

(** [A-Z0-9_] *)
Definition name_char (c : ascii) : bool :=
  let n := Py.code c in
  ((65 <=? n) && (n <=? 90) || (48 <=? n) && (n <=? 57) || (n =? 95))%N.

(** [^x] *)
Definition other_than (x : ascii) (c : ascii) : bool := negb (Ascii.eqb c x).

(** [ \t] *)
Definition blank_char (c : ascii) : bool :=
  Ascii.eqb c " "%char || Ascii.eqb c "009"%char.

Definition CR : string := String "013"%char EmptyString.

(** [\[\[@([A-Z0-9_]+)\s*\?\s*([^:]+)\s*:\s*([^\]]+)\]\]] *)
Definition conditional_pattern : Re.regex :=
  Re.cat [Re.Lit "[[@"; Re.Group (Re.Plus name_char); Re.Star Py.is_space;
          Re.Lit "?"; Re.Star Py.is_space;
          Re.Group (Re.Plus (other_than ":"%char)); Re.Star Py.is_space;
          Re.Lit ":"; Re.Star Py.is_space;
          Re.Group (Re.Plus (other_than "]"%char)); Re.Lit "]]"].

(** [\[\[([A-Z0-9_]+)\]\]] *)
Definition simple_pattern : Re.regex :=
  Re.cat [Re.Lit "[["; Re.Group (Re.Plus name_char); Re.Lit "]]"].

(** [<([^>]+)>] *)
Definition include_pattern : Re.regex :=
  Re.cat [Re.Lit "<"; Re.Group (Re.Plus (other_than ">"%char)); Re.Lit ">"].

(** [\r?\n] *)
Definition line_end : Re.regex := Re.Seq (Re.Opt (Re.Lit CR)) (Re.Lit newline).

Definition header_extensions : list string :=
  [".h" +:+ dquote; ".hpp" +:+ dquote; ".hxx" +:+ dquote; ".h++" +:+ dquote].

(** The namespace of a header name, as both scripts compute it. *)
Definition namespace_of (name : string) : string :=
  if bool_decide (name ∈ ["PROCESSOR_FEATURES_INFO"]) then "platform"
  else if bool_decide (name ∈ ["SIMD_COMPARISONS"]) then "simd"
  else "cppon".

Definition template_path_of (base_path name file : string) : string :=
  Py.path_join base_path ["templates"; "headers"; namespace_of name; file].

(** [sorted(list(s))] for a set of strings: the elements in the order of
    their code points. *)
Definition sorted (s : gset string) : list string :=
  merge_sort String.le (elements s).

(** The result of one call of [process_template]: the returned text, and
    the two sets the call may have mutated, as the caller sees them
    afterwards. *)
Abbreviation expansion := (string * option (gset string) * gset string)%type.

(** The type of [process_template]: template text, fragments, headers,
    mode, [std_includes], [base_path], [processed_templates].  The result
    is [None] when the nesting allowance of the model is used up. *)
Abbreviation expander :=
  (string → fragment_store → header_registry → bool → option (gset string) →
   option string → option (gset string) → option expansion).

(** A run that a fatal exception may end. *)
Inductive outcome (A : Type) : Type :=
| Returned (a : A)
| Raised (msg : string).
Arguments Returned {A} a.
Arguments Raised {A} msg.

(** The state of a run: the configuration object shared by both phases, the
    files, and the lines printed. *)
Record world : Type := {
  w_config : config;
  w_files : filesystem;
  w_stdout : list string;
}.

(** ** [scripts/generate_uber_header.py] *)

Module New.

(** [^[ \t]*TAG[ \t]*(?:\r?\n)?(?:[ \t]*\r?\n)?] with [re.escape] applied
    to the tag. *)
Definition tag_line_pattern (tag_text : string) : Re.regex :=
  Re.cat [Re.Bol; Re.Star blank_char; Re.Lit tag_text; Re.Star blank_char;
          Re.Opt line_end; Re.Opt (Re.Seq (Re.Star blank_char) line_end)].

Definition _replace_tag (template_content tag_text replacement : string) : string :=
  if bool_decide (Py.strip replacement = "") then
    Re.sub (tag_line_pattern tag_text) (λ _, "") template_content
  else
    Py.replace tag_text replacement template_content.

(** [[ \t]+(\r?\n)] replaced by its group 1. *)
Definition trailing_blank_pattern : Re.regex :=
  Re.Seq (Re.Plus blank_char) (Re.Group line_end).

Definition _cleanup_content (content : string) : string :=
  Re.sub trailing_blank_pattern (λ m, Re.group m 1) content.

Section process_template.

Variable fs : filesystem.

(** The recursive call of [process_template]. *)
Variable self : expander.

Variables (fragments : fragment_store) (headers : header_registry).
Variables (is_uber : bool) (base_path : option string).

(** The replacement of a reference [@fragment_name]. *)
Definition reference_replacement (fragment_name : string)
    (std_includes : option (gset string)) (processed_templates : gset string)
    : option expansion :=
  if bool_decide (fragment_name = "STANDARD_INCLUDES") && is_uber then
    Some (Py.join newline
            ((λ inc, "#include " +:+ inc) <$>
               default [] (fragments !! "STANDARD_INCLUDES")),
          std_includes, processed_templates)
  else if bool_decide (fragment_name = "ASSERT_MACRO") then
    Some (Py.join newline (default [] (fragments !! "ASSERT_MACRO")),
          std_includes, processed_templates)
  else
    match fragments !! fragment_name with
    | Some lines => Some (Py.join newline lines, std_includes, processed_templates)
    | None =>
        match header_file headers fragment_name, base_path, is_uber with
        | Some file, Some base, true =>
            let template_path := template_path_of base fragment_name file in
            if bool_decide (template_path ∈ processed_templates) then
              Some ("/* Circular reference detected: " +:+ fragment_name +:+ " */",
                    std_includes, processed_templates)
            else
              let processed_templates := processed_templates ∪ {[template_path]} in
              match read_file fs template_path with
              | inl template_content_inner =>
                  self template_content_inner fragments headers is_uber
                    std_includes base_path (Some processed_templates)
              | inr e =>
                  Some ("/* Error processing " +:+ fragment_name +:+ ": " +:+ e +:+ " */",
                        std_includes, processed_templates)
              end
        | _, _, _ =>
            Some ("/* Fragment or header not found: " +:+ fragment_name +:+ " */",
                  std_includes, processed_templates)
        end
    end.

(** The replacement of a branch that carries no marker. *)
Definition literal_replacement (value : string) : string :=
  if negb is_uber
     && (Py.startswith value dquote
           && existsb (Py.endswith value) header_extensions
         || Py.startswith value "<" && Py.endswith value ">")
  then "#include " +:+ value
  else Py.strip_chars (squote +:+ dquote) value.

(** The body of the loop over the conditional tags: the replacement of
    one match and the sets after it. *)
Definition conditional_replacement (m : Re.rmatch)
    (std_includes : option (gset string)) (processed_templates : gset string)
    : option expansion :=
  let condition := Re.group m 1 in
  let then_branch := Re.group m 2 in
  let else_branch := Re.group m 3 in
  let value :=
    if bool_decide (condition = "UBER") && is_uber
    then Py.strip then_branch else Py.strip else_branch in
  if Py.startswith (Py.strip then_branch) "@STDCAPTURE"
     && bool_decide (is_Some std_includes) && negb is_uber
  then
    let std_includes :=
      match Re.search include_pattern else_branch with
      | Some include_match =>
          (λ s, s ∪ {["<" +:+ Re.group include_match 1 +:+ ">"]}) <$> std_includes
      | None => std_includes
      end in
    Some ("#include " +:+ else_branch, std_includes, processed_templates)
  else if Py.startswith value "@STDCAPTURE" then
    Some ("", std_includes, processed_templates)
  else if Py.startswith value "@" then
    reference_replacement (Py.drop 1 value) std_includes processed_templates
  else
    Some (literal_replacement value, std_includes, processed_templates).

Definition conditional_step (acc : option expansion) (m : Re.rmatch)
    : option expansion :=
  '(template_content, std_includes, processed_templates) ← acc;
  '(replacement, std_includes, processed_templates) ←
    conditional_replacement m std_includes processed_templates;
  Some (_replace_tag template_content (Re.group m 0) replacement,
        std_includes, processed_templates).

(** The body of the loop over the simple tags. *)
Definition simple_replacement (m : Re.rmatch) : string :=
  match fragments !! Re.group m 1 with
  | Some lines => Py.join newline lines
  | None => ""
  end.

Definition simple_step (template_content : string) (m : Re.rmatch) : string :=
  _replace_tag template_content (Re.group m 0) (simple_replacement m).

(** One call of [process_template].  Both loops run over the matches
    found in the text as it was when the loop started. *)
(** The loop over the conditional tags. *)
Definition conditional_pass (template_content : string)
    (std_includes : option (gset string)) (processed_templates : gset string)
    : option expansion :=
  fold_left conditional_step
    (Re.finditer conditional_pattern template_content)
    (Some (template_content, std_includes, processed_templates)).

(** The loop over the simple tags. *)
Definition simple_pass (template_content : string) : string :=
  fold_left simple_step
    (Re.finditer simple_pattern template_content) template_content.

Definition process_template_body (template_content : string)
    (std_includes : option (gset string))
    (processed_templates : option (gset string)) : option expansion :=
  let processed_templates := default ∅ processed_templates in
  '(template_content, std_includes, processed_templates) ←
    conditional_pass template_content std_includes processed_templates;
  let template_content := simple_pass template_content in
  Some (_cleanup_content template_content, std_includes, processed_templates).

End process_template.

(** [process_template], with [depth] the number of nested header
    inclusions the model allows. *)
Fixpoint process_template (fs : filesystem) (depth : nat)
    (template_content : string) (fragments : fragment_store)
    (headers : header_registry) (is_uber : bool)
    (std_includes : option (gset string)) (base_path : option string)
    (processed_templates : option (gset string)) : option expansion :=
  process_template_body fs
    (match depth with
     | S d => process_template fs d
     | O => λ _ _ _ _ _ _ _, None
     end)
    fragments headers is_uber base_path
    template_content std_includes processed_templates.

(** The text of a template, or the exception that ends the run. *)
Definition load_template (w : world) (path : string)
    (k : string → option (outcome (gset string * world)))
    : option (outcome (gset string * world)) :=
  match read_file (w_files w) path with
  | inl template_content => k template_content
  | inr e => Some (Raised e)
  end.

(** Expanding one template in modular mode and writing the result: the
    part of [generate_modular_files] that its loop body and the code
    after the loop have in common. *)
Definition generate_modular_file (base_path template_path output_path : string)
    (std_includes : gset string) (w : world)
    : option (outcome (gset string * world)) :=
  let fragments := fragments (w_config w) in
  let headers := headers (w_config w) in
  load_template w template_path (λ template_content,
    '(content, std_includes', _) ←
      process_template (w_files w) (length headers) template_content
        fragments headers false (Some std_includes) (Some base_path) None;
    Some (Returned
      (default std_includes std_includes',
       {| w_config := w_config w;
          w_files := write_file (w_files w) output_path content;
          w_stdout := w_stdout w ++ ["Generated " +:+ output_path] |}))).

(** The body of the loop over [headers.items()]. *)
Definition modular_step (base_path : string)
    (acc : option (outcome (gset string * world))) (item : string * string)
    : option (outcome (gset string * world)) :=
  let '(key, template_name) := item in
  match acc with
  | Some (Returned (std_includes, w)) =>
      if bool_decide (key = "CPPON") then acc
      else
        let namespace := namespace_of key in
        let output_name := Py.replace ".tmpl" ".h" template_name in
        let template_path :=
          Py.path_join base_path ["templates"; "headers"; namespace; template_name] in
        let output_path :=
          Py.path_join base_path ["include"; namespace; output_name] in
        generate_modular_file base_path template_path output_path std_includes w
  | _ => acc
  end.

Definition generate_modular_files (w : world) (base_path : string)
    : option (outcome (gset string * world)) :=
  match fold_left (modular_step base_path) (headers (w_config w))
          (Some (Returned (∅, w))) with
  | Some (Returned (std_includes, w)) =>
      generate_modular_file base_path
        (Py.path_join base_path ["templates"; "headers"; "c++on.tmpl"])
        (Py.path_join base_path ["include"; "cppon"; "c++on.h"])
        std_includes w
  | r => r
  end.

(** The fragment store after
    [fragments["STANDARD_INCLUDES"] = sorted(list(std_includes))]. *)
Definition with_standard_includes (fragments : fragment_store)
    (std_includes : gset string) : fragment_store :=
  <["STANDARD_INCLUDES" := sorted std_includes]> fragments.

Definition generate_uber_file (w : world) (base_path : string)
    (std_includes : gset string) : option (outcome world) :=
  let fragments := with_standard_includes (fragments (w_config w)) std_includes in
  let headers := headers (w_config w) in
  let w := {| w_config := {| fragments := fragments; headers := headers |};
              w_files := w_files w; w_stdout := w_stdout w |} in
  let template_path := Py.path_join base_path ["templates"; "headers"; "c++on.tmpl"] in
  match read_file (w_files w) template_path with
  | inl template_content =>
      '(content, _, _) ←
        process_template (w_files w) (length headers) template_content
          fragments headers true None (Some base_path) None;
      let output_path := Py.path_join base_path ["single_include"; "cppon"; "c++on.h"] in
      Some (Returned
        {| w_config := w_config w;
           w_files := write_file (w_files w) output_path content;
           w_stdout := w_stdout w ++ ["Generated uber header: " +:+ output_path] |})
  | inr e => Some (Raised e)
  end.

(** [main], from the point where the configuration has been loaded into
    [w_config]. *)
Definition main (w : world) : option (outcome world) :=
  let base_path := ".." in
  match generate_modular_files w base_path with
  | Some (Returned (std_includes, w)) =>
      match generate_uber_file w base_path std_includes with
      | Some (Returned w) =>
          Some (Returned
            {| w_config := w_config w; w_files := w_files w;
               w_stdout := w_stdout w ++ ["Header generation complete!"] |})
      | r => r
      end
  | Some (Raised e) => Some (Raised e)
  | None => None
  end.

End New.

(** ** [scripts/generate_uber_header_old.py] *)

Module Old.

Section process_template.

Variable fs : filesystem.
Variable self : expander.
Variables (fragments : fragment_store) (headers : header_registry).
Variables (is_uber : bool) (base_path : option string).

Definition reference_replacement (fragment_name : string)
    (std_includes : option (gset string)) (processed_templates : gset string)
    : option expansion :=
  if bool_decide (fragment_name = "STANDARD_INCLUDES") && is_uber then
    Some (Py.join newline
            ((λ inc, "#include " +:+ inc) <$>
               default [] (fragments !! "STANDARD_INCLUDES")),
          std_includes, processed_templates)
  else if bool_decide (fragment_name = "ASSERT_MACRO") then
    Some (Py.join newline (default [] (fragments !! "ASSERT_MACRO")),
          std_includes, processed_templates)
  else
    match fragments !! fragment_name with
    | Some lines => Some (Py.join newline lines, std_includes, processed_templates)
    | None =>
        match header_file headers fragment_name, base_path, is_uber with
        | Some file, Some base, true =>
            let template_path := template_path_of base fragment_name file in
            if bool_decide (template_path ∈ processed_templates) then
              Some ("/* Circular reference detected: " +:+ fragment_name +:+ " */",
                    std_includes, processed_templates)
            else
              let processed_templates := processed_templates ∪ {[template_path]} in
              match read_file fs template_path with
              | inl template_content_inner =>
                  self template_content_inner fragments headers is_uber
                    std_includes base_path (Some processed_templates)
              | inr e =>
                  Some ("/* Error processing " +:+ fragment_name +:+ ": " +:+ e +:+ " */",
                        std_includes, processed_templates)
              end
        | _, _, _ =>
            Some ("/* Fragment or header not found: " +:+ fragment_name +:+ " */",
                  std_includes, processed_templates)
        end
    end.

Definition literal_replacement (value : string) : string :=
  if negb is_uber
     && (Py.startswith value dquote
           && existsb (Py.endswith value) header_extensions
         || Py.startswith value "<" && Py.endswith value ">")
  then "#include " +:+ value
  else Py.strip_chars (squote +:+ dquote) value.

Definition conditional_replacement (m : Re.rmatch)
    (std_includes : option (gset string)) (processed_templates : gset string)
    : option expansion :=
  let condition := Re.group m 1 in
  let then_branch := Re.group m 2 in
  let else_branch := Re.group m 3 in
  let value :=
    if bool_decide (condition = "UBER") && is_uber
    then Py.strip then_branch else Py.strip else_branch in
  if Py.startswith (Py.strip then_branch) "@STDCAPTURE"
     && bool_decide (is_Some std_includes) && negb is_uber
  then
    let std_includes :=
      match Re.search include_pattern else_branch with
      | Some include_match =>
          (λ s, s ∪ {["<" +:+ Re.group include_match 1 +:+ ">"]}) <$> std_includes
      | None => std_includes
      end in
    Some ("#include " +:+ else_branch, std_includes, processed_templates)
  else if Py.startswith value "@STDCAPTURE" then
    Some ("", std_includes, processed_templates)
  else if Py.startswith value "@" then
    reference_replacement (Py.drop 1 value) std_includes processed_templates
  else
    Some (literal_replacement value, std_includes, processed_templates).

(** The tag is replaced wherever it occurs, whatever the replacement. *)
Definition conditional_step (acc : option expansion) (m : Re.rmatch)
    : option expansion :=
  '(template_content, std_includes, processed_templates) ← acc;
  '(replacement, std_includes, processed_templates) ←
    conditional_replacement m std_includes processed_templates;
  Some (Py.replace (Re.group m 0) replacement template_content,
        std_includes, processed_templates).

(** A simple tag that names no fragment is left in the text. *)
Definition simple_step (template_content : string) (m : Re.rmatch) : string :=
  match fragments !! Re.group m 1 with
  | Some lines => Py.replace (Re.group m 0) (Py.join newline lines) template_content
  | None => template_content
  end.

Definition conditional_pass (template_content : string)
    (std_includes : option (gset string)) (processed_templates : gset string)
    : option expansion :=
  fold_left conditional_step
    (Re.finditer conditional_pattern template_content)
    (Some (template_content, std_includes, processed_templates)).

Definition simple_pass (template_content : string) : string :=
  fold_left simple_step
    (Re.finditer simple_pattern template_content) template_content.

Definition process_template_body (template_content : string)
    (std_includes : option (gset string))
    (processed_templates : option (gset string)) : option expansion :=
  let processed_templates := default ∅ processed_templates in
  '(template_content, std_includes, processed_templates) ←
    conditional_pass template_content std_includes processed_templates;
  let template_content := simple_pass template_content in
  Some (template_content, std_includes, processed_templates).

End process_template.

Fixpoint process_template (fs : filesystem) (depth : nat)
    (template_content : string) (fragments : fragment_store)
    (headers : header_registry) (is_uber : bool)
    (std_includes : option (gset string)) (base_path : option string)
    (processed_templates : option (gset string)) : option expansion :=
  process_template_body fs
    (match depth with
     | S d => process_template fs d
     | O => λ _ _ _ _ _ _ _, None
     end)
    fragments headers is_uber base_path
    template_content std_includes processed_templates.

End Old.

(** ** The paths a header reference can reach *)

(** The template paths that a header reference can resolve to. *)
Definition header_paths (base_path : option string) (hs : header_registry)
    : gset string :=
  match base_path with
  | Some base => list_to_set ((λ item, template_path_of base item.1 item.2) <$> hs)
  | None => ∅
  end.

(** What the proofs ask of the expander used for the recursive call: on
    every visited set that leaves fewer than [n] paths unvisited it returns,
    and it only adds to the visited set. *)
Definition returns_below (fragments : fragment_store) (headers : header_registry)
    (is_uber : bool) (base_path : option string) (n : nat) (self : expander) : Prop :=
  ∀ text std P,
    size (header_paths base_path headers ∖ P) < n →
    ∃ out std' P',
      self text fragments headers is_uber std base_path (Some P) = Some (out, std', P')
      ∧ P ⊆ P'.

(** ** Configurations for the examples *)

(** Two headers that include each other. *)
Definition cycle_headers : header_registry := [("A", "a.tmpl"); ("B", "b.tmpl")].

Definition cycle_template_A : string := "[[@UBER ? @B : -]]".
Definition cycle_template_B : string := "[[@UBER ? @A : -]]".

Definition cycle_files : filesystem :=
  λ path,
    if bool_decide (path = "../templates/headers/cppon/a.tmpl") then inl cycle_template_A
    else if bool_decide (path = "../templates/headers/cppon/b.tmpl") then inl cycle_template_B
    else inr "no such file".




(** A run with one header: its template captures two standard includes, one
    of them twice, and the root template captures one of them again. *)
Definition example_world : world :=
  {| w_config := {| fragments := ∅; headers := [("VEC", "vec.tmpl")] |};
     w_files := λ path,
       if bool_decide (path = "../templates/headers/cppon/vec.tmpl") then
         inl ("[[@UBER ? @STDCAPTURE : <vector>]]" +:+ newline +:+
              "[[@UBER ? @STDCAPTURE : <map>]]" +:+ newline +:+
              "[[@UBER ? @STDCAPTURE : <vector>]]" +:+ newline +:+ "struct vec;")
       else if bool_decide (path = "../templates/headers/c++on.tmpl") then
         inl ("[[@UBER ? @STANDARD_INCLUDES : -]]" +:+ newline +:+
              "[[@UBER ? @STDCAPTURE : <vector>]]" +:+ newline +:+
              "[[@UBER ? @VEC : <cppon/vec.h>]]")
       else inr "no such file";
     w_stdout := [] |}.

(** The include set and the state that the modular phase of that run
    leaves. *)
Definition example_includes : gset string :=
  match New.generate_modular_files example_world ".." with
  | Some (Returned (std_includes, _)) => std_includes
  | _ => ∅
  end.

Definition example_after_modular : world :=
  match New.generate_modular_files example_world ".." with
  | Some (Returned (_, w)) => w
  | _ => example_world
  end.

Definition example_after_uber : world :=
  match New.generate_uber_file example_after_modular ".." example_includes with
  | Some (Returned w) => w
  | _ => example_world
  end.

(** ** Lines of a text *)

Definition is_cr (c : ascii) : bool := Ascii.eqb c "013"%char.

(** Whether every character of [s] is in the class [p]. *)
Fixpoint all_of (p : ascii → bool) (s : string) : bool :=
  match s with
  | String c s' => p c && all_of p s'
  | EmptyString => true
  end.

(** The pieces of a text between its line feeds: a text with [n] line feeds
    has [n + 1] lines, the last of which no line feed ends. *)
Fixpoint lines (s : string) : list string :=
  match s with
  | String c s' =>
      if Re.is_nl c then "" :: lines s'
      else match lines s' with
           | l :: ls => String c l :: ls
           | [] => [String c ""]
           end
  | EmptyString => [""]
  end.





(** ** The cleanup, character by character *)

(** Whether, after the spaces and tabs at the start of [s], a line
    terminator follows. *)
Fixpoint eol_follows (s : string) : bool :=
  match s with
  | String c s' =>
      if blank_char c then eol_follows s'
      else Re.is_nl c
           || is_cr c && match s' with String d _ => Re.is_nl d | EmptyString => false end
  | EmptyString => false
  end.

(** The cleanup, one character at a time: a space or tab goes when a line
    terminator follows the blanks after it. *)
Fixpoint drop_trailing_blanks (s : string) : string :=
  match s with
  | String c s' =>
      if blank_char c && eol_follows s' then drop_trailing_blanks s'
      else String c (drop_trailing_blanks s')
  | EmptyString => EmptyString
  end.

(** The line terminator at the start of [s], and what follows it. *)
Definition eol_split (s : string) : option (string * string) :=
  match s with
  | String c s' =>
      if Re.is_nl c then Some (newline, s')
      else if is_cr c then
        match s' with
        | String d s'' => if Re.is_nl d then Some (CR +:+ newline, s'') else None
        | EmptyString => None
        end
      else None
  | EmptyString => None
  end.

(** The spaces and tabs at the start of [s]. *)
Fixpoint blank_run (s : string) : string :=
  match s with
  | String c s' => if blank_char c then String c (blank_run s') else ""
  | EmptyString => ""
  end.

(** The continuation of the blanks in the cleanup pattern: the captured
    line terminator. *)
Definition after_blanks : Re.kont :=
  λ bol s gs, Re.run (Re.Group line_end) bol s gs (λ _ rest gs', Some (rest, gs')).


(** ** The two scripts on the same template *)

(** [replacement.strip() == ""], the test of [_replace_tag]. *)
Definition blank (replacement : string) : bool :=
  bool_decide (Py.strip replacement = "").





(** What the proofs ask of the expander used for the recursive call in uber
    mode: on every set of processed paths that leaves fewer than [n] header
    paths unmarked it returns, gives the include set back as it was, and
    adds nothing but header paths to the processed paths. *)
Definition inlines_below (fragments : fragment_store) (headers : header_registry)
    (base_path : option string) (n : nat) (self : expander) : Prop :=
  ∀ text std P,
    size (header_paths base_path headers ∖ P) < n →
    ∃ out P',
      self text fragments headers true std base_path (Some P) = Some (out, std, P')
      ∧ P ⊆ P' ∧ P' ⊆ P ∪ header_paths base_path headers.

(** The characters of [s] other than spaces and tabs, in order. *)
Fixpoint non_blanks (s : string) : string :=
  match s with
  | String c s' => if blank_char c then non_blanks s' else String c (non_blanks s')
  | EmptyString => EmptyString
  end.

(** Whether somewhere in [s] a space or a tab stands directly before a line
    feed. *)
Fixpoint blank_before_newline (s : string) : bool :=
  match s with
  | String c s' =>
      blank_char c && match s' with String d _ => Re.is_nl d | EmptyString => false end
      || blank_before_newline s'
  | EmptyString => false
  end.

(** Whether [s] holds no carriage return. *)
Definition no_cr (s : string) : bool := all_of (λ c, negb (is_cr c)) s.

(** [tag in s]: whether [tag] occurs in [s] as a substring. *)
Fixpoint occurs_in (tag s : string) : bool :=
  String.prefix tag s
  || match s with
     | String _ s' => occurs_in tag s'
     | EmptyString => false
     end.













(** Whether [s] holds no line feed. *)
Definition no_nl (s : string) : bool := all_of (λ c, negb (Re.is_nl c)) s.

(** [s] without its first line, when that line is blank and terminated. *)
Definition skip_blank_line (s : string) : string :=
  match eol_split (Py.lstrip_by blank_char s) with
  | Some (_, r) => r
  | None => s
  end.

(** What is left of the text behind a tag after the blanks that follow the
    tag, the line terminator after them and one blank line have gone. *)
Definition tag_line_rest (s : string) : string :=
  let s := Py.lstrip_by blank_char s in
  skip_blank_line (match eol_split s with Some (_, r) => r | None => s end).

(** The characters of a stretch of text in which the scan finds no match. *)
Definition unmatched (s : string) : list (ascii + Re.rmatch) :=
  inl <$> list_ascii_of_string s.

(** The continuation that ends a match. *)
Definition accept : Re.kont := λ _ rest gs, Some (rest, gs).

(** The text of the simple tag that names [name]. *)
Definition simple_tag (name : string) : string := "[[" +:+ name +:+ "]]".

(** ** The matcher on the patterns of the scripts *)

(** Three conditional tags: a standard capture; branches that are blank, where
    the repetition of white space gives one character back to the branch;
    and an else-branch with a colon in it. *)
Example conditional_tags_found :
  Re.finditer conditional_pattern
    "a [[@UBER ? @STDCAPTURE : <vector>]] b [[@X?  :  ]]c[[@Y ? a:b : c]]"
  = [{| Re.group0 := "[[@UBER ? @STDCAPTURE : <vector>]]";
        Re.groups := ["UBER"; "@STDCAPTURE "; "<vector>"] |};
     {| Re.group0 := "[[@X?  :  ]]"; Re.groups := ["X"; " "; " "] |};
     {| Re.group0 := "[[@Y ? a:b : c]]"; Re.groups := ["Y"; "a"; "b : c"] |}].
Proof. vm_compute. reflexivity. Qed.

Example include_spelling_found :
  Re.search include_pattern "<><<a>"
  = Some {| Re.group0 := "<<a>"; Re.groups := ["<a"] |}.
Proof. vm_compute. reflexivity. Qed.

Example replace_all_occurrences :
  Py.replace "ab" "X" "abcabab" = "XcXX" ∧ Py.replace "aa" "b" "aaaaa" = "bba".
Proof. split; vm_compute; reflexivity. Qed.

(** A tag alone on its line goes with the line and one blank line after it,
    and so does each further line that holds the same tag. *)
Example tag_lines_dropped :
  New._replace_tag ("  [[FOO]]  " +:+ newline +:+ newline +:+ newline +:+ "z") "[[FOO]]" ""
  = newline +:+ "z"
  ∧ New._replace_tag
      ("[[FOO]]" +:+ newline +:+ newline +:+ "[[FOO]]" +:+ newline +:+ newline
         +:+ newline +:+ "z") "[[FOO]]" ""
    = newline +:+ "z".
Proof. split; vm_compute; reflexivity. Qed.

Example cleanup_with_carriage_returns :
  New._cleanup_content
    ("a " +:+ CR +:+ " " +:+ newline +:+ "b  " +:+ CR +:+ newline +:+ "c  ")
  = "a " +:+ CR +:+ newline +:+ "b" +:+ CR +:+ newline +:+ "c  ".
Proof. vm_compute. reflexivity. Qed.

(** The scenario of the specification: a fragment reference, in modular
    mode. *)
Example simple_fragment_scenario :
  New.process_template cycle_files 0 ("[[FOO]]" +:+ newline +:+ newline +:+ "// end")
    {["FOO" := ["int foo();"]]} [] false (Some ∅) (Some "..") None
  = Some ("int foo();" +:+ newline +:+ newline +:+ "// end", Some ∅, ∅).
Proof. vm_compute. reflexivity. Qed.

(** ** Termination of the expansion *)


Lemma header_file_path base hs name file :
  header_file hs name = Some file →
  template_path_of base name file ∈ header_paths (Some base) hs.
Proof.
  unfold header_paths. induction hs as [|[k v] hs IH]; cbn [header_file fmap list_fmap]; [done|].
  rewrite list_to_set_cons. case_bool_decide as Hk.
  - intros [= <-]. subst k. set_solver.
  - intros Hf. specialize (IH Hf). set_solver.
Qed.

Lemma header_paths_size base_path hs :
  size (header_paths base_path hs) ≤ length hs.
Proof.
  destruct base_path as [base|]; unfold header_paths; [|rewrite size_empty; lia].
  induction hs as [|item hs IH]; cbn [fmap list_fmap length].
  - change (list_to_set []) with (∅ : gset string). rewrite size_empty. lia.
  - rewrite list_to_set_cons, size_union_alt, size_singleton.
    set (X := list_to_set _ : gset string).
    assert (size (X ∖ {[template_path_of base item.1 item.2]}) ≤ size X)
      by (apply subseteq_size; set_solver).
    change (size X ≤ length hs) in IH. lia.
Qed.

Lemma unvisited_decreases (U P : gset string) path :
  path ∈ U → path ∉ P → size (U ∖ (P ∪ {[path]})) < size (U ∖ P).
Proof. intros HU HP. apply subset_size. set_solver. Qed.


Section new_total.

Variable fs : filesystem.
Variables (fragments : fragment_store) (headers : header_registry).

Lemma new_reference_returns self is_uber base_path n name std P :
  returns_below fragments headers is_uber base_path n self →
  size (header_paths base_path headers ∖ P) ≤ n →
  ∃ out std' P',
    New.reference_replacement fs self fragments headers is_uber base_path
      name std P = Some (out, std', P')
    ∧ P ⊆ P'.
Proof.
  intros Hself Hn. unfold New.reference_replacement.
  destruct (bool_decide _ && _); [eauto 10|].
  destruct (bool_decide _); [eauto 10|].
  destruct (fragments !! name); [eauto 10|].
  destruct (header_file headers name) as [file|] eqn:Hfile; [|eauto 10].
  destruct base_path as [base|]; [|eauto 10].
  destruct is_uber; [|eauto 10].
  cbv zeta. case_bool_decide as Hin; [eauto 10|].
  destruct (read_file fs _) as [inner|e].
  - (* the header is entered *)
    destruct (Hself inner std (P ∪ {[template_path_of base name file]}))
      as (out & std' & P' & -> & HP).
    + eapply Nat.lt_le_trans; [|exact Hn].
      apply unvisited_decreases; [|done]. by apply header_file_path.
    + exists out, std', P'. split; [done|set_solver].
  - (* the header cannot be read *)
    eexists _, _, _. split; [done|set_solver].
Qed.

Lemma new_conditional_returns self is_uber base_path n m std P :
  returns_below fragments headers is_uber base_path n self →
  size (header_paths base_path headers ∖ P) ≤ n →
  ∃ out std' P',
    New.conditional_replacement fs self fragments headers is_uber base_path
      m std P = Some (out, std', P')
    ∧ P ⊆ P'.
Proof.
  intros Hself Hn. unfold New.conditional_replacement. cbv zeta.
  destruct (_ && _ && _); [eauto 10|].
  destruct (Py.startswith _ "@STDCAPTURE"); [eauto 10|].
  destruct (Py.startswith _ "@"); [|eauto 10].
  by eapply new_reference_returns.
Qed.

Lemma new_conditional_loop_returns self is_uber base_path n ms text std P0 P :
  returns_below fragments headers is_uber base_path n self →
  size (header_paths base_path headers ∖ P0) ≤ n → P0 ⊆ P →
  ∃ out std' P',
    fold_left (New.conditional_step fs self fragments headers is_uber base_path)
      ms (Some (text, std, P)) = Some (out, std', P')
    ∧ P0 ⊆ P'.
Proof.
  intros Hself Hn. revert text std P.
  induction ms as [|m ms IH]; intros text std P HP; cbn [fold_left]; [eauto 10|].
  unfold New.conditional_step at 2. cbn [mbind option_bind].
  destruct (new_conditional_returns self is_uber base_path n m std P)
    as (r & std1 & P1 & -> & HP1); [done| |].
  { etrans; [|exact Hn]. apply subseteq_size. set_solver. }
  apply IH. set_solver.
Qed.

Lemma new_body_returns self is_uber base_path n text std P :
  returns_below fragments headers is_uber base_path n self →
  size (header_paths base_path headers ∖ default ∅ P) ≤ n →
  ∃ out std' P',
    New.process_template_body fs self fragments headers is_uber base_path
      text std P = Some (out, std', P')
    ∧ default ∅ P ⊆ P'.
Proof.
  intros Hself Hn. unfold New.process_template_body, New.conditional_pass.
  destruct (new_conditional_loop_returns self is_uber base_path n
    (Re.finditer conditional_pattern text) text std (default ∅ P) (default ∅ P))
    as (out & std' & P' & -> & HP); [done..|].
  cbn [mbind option_bind]. eauto 10.
Qed.

End new_total.

Lemma new_process_template_returns fs depth text fragments headers is_uber
    std base_path P :
  size (header_paths base_path headers ∖ default ∅ P) ≤ depth →
  ∃ out std' P',
    New.process_template fs depth text fragments headers is_uber std base_path P
      = Some (out, std', P')
    ∧ default ∅ P ⊆ P'.
Proof.
  revert text std P. induction depth as [|d IH]; intros text std P Hn;
    cbn [New.process_template].
  - eapply new_body_returns; [|exact Hn]. intros ??? Hlt. lia.
  - eapply new_body_returns; [|exact Hn]. intros t s Q Hlt.
    destruct (IH t s (Some Q)) as (out & std' & P' & Heq & HP); [|].
    { change (size (header_paths base_path headers ∖ Q) ≤ d). lia. }
    eauto 10.
Qed.

Lemma unvisited_bound base_path hs (P : gset string) :
  size (header_paths base_path hs ∖ P) ≤ length hs.
Proof.
  trans (size (header_paths base_path hs)); [|apply header_paths_size].
  apply subseteq_size. set_solver.
Qed.

(** ** The run never exhausts the nesting it allows itself *)

Lemma generate_modular_file_returns base template_path output_path S w :
  New.generate_modular_file base template_path output_path S w ≠ None.
Proof.
  unfold New.generate_modular_file, New.load_template.
  destruct (read_file _ _) as [text|e]; [|done].
  destruct (new_process_template_returns (w_files w) (length (headers (w_config w)))
    text (fragments (w_config w)) (headers (w_config w)) false (Some S) (Some base) None)
    as (out & std' & P' & -> & _); [apply unvisited_bound|done].
Qed.

Lemma modular_loop_returns base hs acc :
  acc ≠ None → fold_left (New.modular_step base) hs acc ≠ None.
Proof.
  revert acc. induction hs as [|[key template_name] hs IH]; intros acc Hacc; [done|].
  cbn [fold_left]. apply IH. unfold New.modular_step.
  destruct acc as [[[S w]|e]|]; [|done..].
  case_bool_decide; [done|]. apply generate_modular_file_returns.
Qed.

Lemma main_returns w : New.main w ≠ None.
Proof.
  unfold New.main, New.generate_modular_files. cbv zeta.
  pose proof (modular_loop_returns ".." (headers (w_config w))
    (Some (Returned (∅, w))) ltac:(done)) as Hloop.
  destruct (fold_left _ _ _) as [[[S w1]|e]|]; [|done..].
  pose proof (generate_modular_file_returns ".."
    (Py.path_join ".." ["templates"; "headers"; "c++on.tmpl"])
    (Py.path_join ".." ["include"; "cppon"; "c++on.h"]) S w1) as Hroot.
  destruct (New.generate_modular_file _ _ _ _ _) as [[[S2 w2]|e]|]; [|done..].
  unfold New.generate_uber_file. cbv zeta. cbn [w_files w_config w_stdout].
  destruct (read_file _ _) as [text|e]; [|done].
  destruct (new_process_template_returns (w_files w2) (length (headers (w_config w2)))
    text (New.with_standard_includes (fragments (w_config w2)) S2)
    (headers (w_config w2)) true None (Some "..") None)
    as (out & std' & P' & -> & _); [apply unvisited_bound|done].
Qed.

(** ** References to headers *)

Section header_reference.

Variable fs : filesystem.
Variable self : expander.
Variables (fragments : fragment_store) (headers : header_registry).
Variables (base name file : string).

Hypothesis registered : header_file headers name = Some file.
Hypothesis no_fragment : fragments !! name = None.
Hypothesis not_includes : name ≠ "STANDARD_INCLUDES".
Hypothesis not_assert : name ≠ "ASSERT_MACRO".

Let path := template_path_of base name file.




End header_reference.



(** The whole of the cycle, run: the reference to [A] is entered, then the
    reference to [B], and the reference back to [A] is the comment. *)
Example cycle_expansion :
  New.process_template cycle_files 2 "[[@UBER ? @A : -]]" ∅ cycle_headers true
    None (Some "..") None
  = Some ("/* Circular reference detected: A */", None,
          {["../templates/headers/cppon/a.tmpl"; "../templates/headers/cppon/b.tmpl"]}).
Proof. vm_compute. reflexivity. Qed.

(** The template of [A] itself, handed to [process_template]: its own path
    is not marked, so [A] is entered once more through [B] before the
    reference to [B] is cut. *)
Example cycle_expansion_from_inside :
  New.process_template cycle_files 2 cycle_template_A ∅ cycle_headers true
    None (Some "..") None
  = Some ("/* Circular reference detected: B */", None,
          {["../templates/headers/cppon/a.tmpl"; "../templates/headers/cppon/b.tmpl"]}).
Proof. vm_compute. reflexivity. Qed.




(** ** References that resolve to nothing *)

Lemma new_reference_not_found fs self (fragments : fragment_store)
    (headers : header_registry) is_uber base_path name std P :
  fragments !! name = None →
  name ≠ "ASSERT_MACRO" →
  (name = "STANDARD_INCLUDES" → is_uber = false) →
  header_file headers name = None ∨ base_path = None ∨ is_uber = false →
  New.reference_replacement fs self fragments headers is_uber base_path name std P
  = Some ("/* Fragment or header not found: " +:+ name +:+ " */", std, P).
Proof.
  intros Hfrag Hass Hinc Hhdr. unfold New.reference_replacement.
  assert (bool_decide (name = "STANDARD_INCLUDES") && is_uber = false) as ->.
  { case_bool_decide; [|done]. by rewrite Hinc. }
  rewrite (bool_decide_eq_false_2 _ Hass), Hfrag.
  destruct Hhdr as [->| [->| ->]]; [done|..].
  - by destruct (header_file headers name).
  - by destruct (header_file headers name), base_path.
Qed.

Lemma new_conditional_reference fs self (fragments : fragment_store)
    (headers : header_registry) is_uber base_path tag condition then_branch
    else_branch name std P :
  (if bool_decide (condition = "UBER") && is_uber
   then Py.strip then_branch else Py.strip else_branch) = "@" +:+ name →
  Py.startswith (Py.strip then_branch) "@STDCAPTURE"
    && bool_decide (is_Some std) && negb is_uber = false →
  Py.startswith name "STDCAPTURE" = false →
  New.conditional_replacement fs self fragments headers is_uber base_path
    {| Re.group0 := tag; Re.groups := [condition; then_branch; else_branch] |} std P
  = New.reference_replacement fs self fragments headers is_uber base_path name std P.
Proof.
  intros Hvalue Hcapture Hmarker. unfold New.conditional_replacement.
  cbn [Re.group Re.groups lookup list_lookup default from_option id].
  rewrite Hcapture, Hvalue.
  change (Py.startswith ("@" +:+ name) "@STDCAPTURE") with (Py.startswith name "STDCAPTURE").
  rewrite Hmarker.
  change (Py.startswith ("@" +:+ name) "@") with (Py.startswith name "").
  change (Py.drop 1 ("@" +:+ name)) with name.
  by destruct name.
Qed.

(** C3, as stated, fails for simple tags: a simple tag that names no
    fragment is removed without a trace. *)
Lemma unknown_simple_tag_leaves_no_placeholder :
  New.process_template cycle_files 0 "[[NOPE]]" ∅ [] true None (Some "..") None
  = Some ("", None, ∅).
Proof. vm_compute. reflexivity. Qed.

(** C3, amended. A conditional tag whose active branch is the reference
    [@name] is replaced by the comment that names [name], and nothing is
    raised, when [name] is no fragment, cannot be inlined as a header (it is
    not registered, or the mode is modular, or there is no base path), is
    neither [ASSERT_MACRO] nor, in uber mode, [STANDARD_INCLUDES], does not
    begin with the capture marker, and the tag is not a standard capture
    recorded in modular mode.  A simple tag that names no fragment gets the
    empty replacement instead of a comment. *)
Theorem missing_reference_placeholder (fs : filesystem) (self : expander)
    (fragments : fragment_store) (headers : header_registry) (is_uber : bool)
    (base_path : option string) (tag condition then_branch else_branch name : string)
    (std : option (gset string)) (P : gset string) :
  (if bool_decide (condition = "UBER") && is_uber
   then Py.strip then_branch else Py.strip else_branch) = "@" +:+ name →
  Py.startswith (Py.strip then_branch) "@STDCAPTURE"
    && bool_decide (is_Some std) && negb is_uber = false →
  Py.startswith name "STDCAPTURE" = false →
  fragments !! name = None →
  name ≠ "ASSERT_MACRO" →
  (name = "STANDARD_INCLUDES" → is_uber = false) →
  header_file headers name = None ∨ base_path = None ∨ is_uber = false →
  New.conditional_replacement fs self fragments headers is_uber base_path
    {| Re.group0 := tag; Re.groups := [condition; then_branch; else_branch] |} std P
  = Some ("/* Fragment or header not found: " +:+ name +:+ " */", std, P)
  ∧ ∀ m, fragments !! Re.group m 1 = None → New.simple_replacement fragments m = "".
Proof.
  intros Hvalue Hcapture Hmarker Hfrag Hass Hinc Hhdr. split.
  - rewrite (new_conditional_reference _ _ _ _ _ _ _ _ _ _ name) by done.
    by apply new_reference_not_found.
  - intros m Hm. unfold New.simple_replacement. by rewrite Hm.
Qed.

Lemma missing_reference_placeholder_witness :
  New.conditional_replacement cycle_files (New.process_template cycle_files 0)
    ∅ cycle_headers true (Some "..")
    {| Re.group0 := "[[@UBER ? @H : -]]"; Re.groups := ["UBER"; "@H "; "-"] |} None ∅
  = Some ("/* Fragment or header not found: H */", None, ∅).
Proof.
  apply (missing_reference_placeholder cycle_files (New.process_template cycle_files 0)
    ∅ cycle_headers true (Some "..") "[[@UBER ? @H : -]]" "UBER" "@H " "-" "H" None ∅).
  - vm_compute. reflexivity.
  - vm_compute. reflexivity.
  - vm_compute. reflexivity.
  - reflexivity.
  - discriminate.
  - discriminate.
  - left. reflexivity.
Defined.




(** ** The standard includes, from the modular phase to the uber file *)

(** C6. The tag [[[@UBER ? @STDCAPTURE : <vector>]]] is matched with the
    branches [@STDCAPTURE] and [<vector>].  In modular mode its replacement
    is the include directive and the spelling enters the include set; in
    uber mode its replacement is empty; and in uber mode a reference to
    [STANDARD_INCLUDES], with the include set holding that one spelling,
    is replaced by the directive, once. *)
Theorem vector_capture_scenario :
  let tag := "[[@UBER ? @STDCAPTURE : <vector>]]" in
  let m := {| Re.group0 := tag; Re.groups := ["UBER"; "@STDCAPTURE "; "<vector>"] |} in
  let uber_fragments := New.with_standard_includes ∅ {["<vector>"]} in
  Re.finditer conditional_pattern tag = [m]
  ∧ New.conditional_replacement cycle_files (New.process_template cycle_files 0)
      ∅ [] false (Some "..") m (Some ∅) ∅
    = Some ("#include <vector>", Some {["<vector>"]}, ∅)
  ∧ New.process_template cycle_files 0 tag ∅ [] false (Some ∅) (Some "..") None
    = Some ("#include <vector>", Some {["<vector>"]}, ∅)
  ∧ New.conditional_replacement cycle_files (New.process_template cycle_files 0)
      uber_fragments [] true (Some "..") m None ∅
    = Some ("", None, ∅)
  ∧ uber_fragments !! "STANDARD_INCLUDES" = Some ["<vector>"]
  ∧ New.process_template cycle_files 0
      (tag +:+ newline +:+ "[[@UBER ? @STANDARD_INCLUDES : -]]")
      uber_fragments [] true None (Some "..") None
    = Some ("#include <vector>", None, ∅).
Proof. repeat split; vm_compute; reflexivity. Qed.

(** C5. A tag with a blank replacement that shares its line with text before
    it is not replaced at all: the line pattern starts at the beginning of a
    line and allows only blanks before the tag.  The old script replaces the
    tag wherever it occurs.  With text after it, the tag and the blanks
    around it go and the rest of the line stays.  A tag alone on its line
    goes with its line and one following blank line. *)
Theorem blank_replacement_beside_text :
  New._replace_tag ("int x; [[FOO]]" +:+ newline +:+ "int y;") "[[FOO]]" ""
  = "int x; [[FOO]]" +:+ newline +:+ "int y;"
  ∧ Py.replace "[[FOO]]" "" ("int x; [[FOO]]" +:+ newline +:+ "int y;")
    = "int x; " +:+ newline +:+ "int y;"
  ∧ New.process_template cycle_files 0
      ("int x; [[@UBER ? @STDCAPTURE : <vector>]]" +:+ newline +:+ "int y;")
      ∅ [] true None (Some "..") None
    = Some ("int x; [[@UBER ? @STDCAPTURE : <vector>]]" +:+ newline +:+ "int y;", None, ∅)
  ∧ New._replace_tag ("[[FOO]] int x;" +:+ newline +:+ "int y;") "[[FOO]]" ""
    = "int x;" +:+ newline +:+ "int y;"
  ∧ New._replace_tag
      ("a" +:+ newline +:+ "  [[FOO]] " +:+ newline +:+ newline +:+ newline +:+ "b")
      "[[FOO]]" " "
    = "a" +:+ newline +:+ newline +:+ "b".
Proof. repeat split; vm_compute; reflexivity. Qed.




Lemma generate_modular_file_config base template_path output_path S w S' w' :
  New.generate_modular_file base template_path output_path S w
    = Some (Returned (S', w')) →
  w_config w' = w_config w.
Proof.
  unfold New.generate_modular_file, New.load_template.
  destruct (read_file _ _) as [text|e]; [|done].
  destruct (New.process_template _ _ _ _ _ _ _ _ _) as [[[content std'] P']|];
    cbn [mbind option_bind]; [|done].
  by intros [= <- <-].
Qed.

Lemma modular_loop_config base hs acc S' w' :
  fold_left (New.modular_step base) hs acc = Some (Returned (S', w')) →
  ∃ S w, acc = Some (Returned (S, w)) ∧ w_config w' = w_config w.
Proof.
  revert acc. induction hs as [|[key template_name] hs IH]; intros acc; cbn [fold_left].
  - intros ->. eauto.
  - intros Hfold. destruct (IH _ Hfold) as (S1 & w1 & Hstep & Hcfg).
    unfold New.modular_step in Hstep.
    destruct acc as [[[S w]|e]|]; [|done..].
    exists S, w. split; [done|].
    case_bool_decide; [by simplify_eq|].
    rewrite Hcfg. by eapply generate_modular_file_config.
Qed.

Lemma generate_modular_files_config w base S w1 :
  New.generate_modular_files w base = Some (Returned (S, w1)) →
  w_config w1 = w_config w.
Proof.
  unfold New.generate_modular_files.
  destruct (fold_left _ _ _) as [[[S0 w0]|e]|] eqn:Hloop; [|done..].
  intros Hroot. apply modular_loop_config in Hloop as (S' & w' & [= <- <-] & Hcfg).
  rewrite <-Hcfg. by eapply generate_modular_file_config.
Qed.

Lemma generate_uber_file_inv w base S w2 :
  New.generate_uber_file w base S = Some (Returned w2) →
  ∃ template content std' P',
    read_file (w_files w) (Py.path_join base ["templates"; "headers"; "c++on.tmpl"])
      = inl template
    ∧ New.process_template (w_files w) (length (headers (w_config w))) template
        (New.with_standard_includes (fragments (w_config w)) S)
        (headers (w_config w)) true None (Some base) None
      = Some (content, std', P')
    ∧ w_config w2 = {| fragments := New.with_standard_includes (fragments (w_config w)) S;
                       headers := headers (w_config w) |}
    ∧ w_files w2 = write_file (w_files w)
                     (Py.path_join base ["single_include"; "cppon"; "c++on.h"]) content.
Proof.
  unfold New.generate_uber_file.
  set (root := Py.path_join base ["templates"; "headers"; "c++on.tmpl"]).
  set (target := Py.path_join base ["single_include"; "cppon"; "c++on.h"]).
  cbv zeta. cbn [w_files w_config w_stdout].
  destruct (read_file (w_files w) root) as [template|e] eqn:Hread; [|done].
  destruct (New.process_template (w_files w) (length (headers (w_config w))) template
    (New.with_standard_includes (fragments (w_config w)) S) (headers (w_config w))
    true None (Some base) None) as [[[content std'] P']|] eqn:Hexp;
    cbn [mbind option_bind]; [|done].
  intros [= <-]. exists template, content, std', P'. by rewrite Hexp.
Qed.



(** C7, as stated, fails: the uber phase assigns to the key
    [STANDARD_INCLUDES] of the fragment store of the shared configuration,
    so the store after the run differs from the one that was loaded. *)
Lemma uber_phase_writes_fragment_store :
  New.generate_modular_files example_world ".."
    = Some (Returned (example_includes, example_after_modular))
  ∧ New.generate_uber_file example_after_modular ".." example_includes
    = Some (Returned example_after_uber)
  ∧ fragments (w_config example_world) !! "STANDARD_INCLUDES" = None
  ∧ fragments (w_config example_after_uber) !! "STANDARD_INCLUDES"
    = Some ["<map>"; "<vector>"].
Proof. repeat split; vm_compute; reflexivity. Qed.

(** C7, amended. The modular phase leaves the fragment store and the header
    registry as they were loaded.  The uber phase leaves the header registry
    as it was and changes the fragment store at the key
    [STANDARD_INCLUDES] only, which it binds to the sorted include set. *)
Theorem configuration_frame (w : world) (base : string) (S : gset string)
    (w1 w2 : world) :
  New.generate_modular_files w base = Some (Returned (S, w1)) →
  New.generate_uber_file w1 base S = Some (Returned w2) →
  w_config w1 = w_config w
  ∧ headers (w_config w2) = headers (w_config w)
  ∧ fragments (w_config w2) = <["STANDARD_INCLUDES" := sorted S]> (fragments (w_config w))
  ∧ ∀ name, name ≠ "STANDARD_INCLUDES" →
      fragments (w_config w2) !! name = fragments (w_config w) !! name.
Proof.
  intros Hmod Huber. apply generate_modular_files_config in Hmod.
  apply generate_uber_file_inv in Huber as (_ & _ & _ & _ & _ & _ & Hcfg & _).
  rewrite Hcfg, Hmod. cbn [fragments headers]. repeat split.
  intros name Hname. unfold New.with_standard_includes. by rewrite lookup_insert_ne.
Qed.

Lemma configuration_frame_witness :
  w_config example_after_modular = w_config example_world
  ∧ headers (w_config example_after_uber) = headers (w_config example_world).
Proof.
  assert (New.generate_modular_files example_world ".."
          = Some (Returned (example_includes, example_after_modular))) as Hmod
    by (vm_compute; reflexivity).
  assert (New.generate_uber_file example_after_modular ".." example_includes
          = Some (Returned example_after_uber)) as Huber
    by (vm_compute; reflexivity).
  destruct (configuration_frame example_world ".." example_includes
    example_after_modular example_after_uber Hmod Huber) as (H1 & H2 & _).
  split; [exact H1|exact H2].
Defined.

(** ** Strings as sequences *)

Lemma app_nil_l (b : string) : "" +:+ b = b.
Proof. reflexivity. Qed.

Lemma app_cons c (a b : string) : String c a +:+ b = String c (a +:+ b).
Proof. reflexivity. Qed.

Lemma app_nil_r (a : string) : a +:+ "" = a.
Proof. induction a as [|c a IH]; [done|]. by rewrite app_cons, IH. Qed.

Lemma app_assoc (a b c : string) : (a +:+ b) +:+ c = a +:+ b +:+ c.
Proof. induction a as [|x a IH]; [done|]. by rewrite !app_cons, IH. Qed.

Lemma length_app (a b : string) :
  String.length (a +:+ b) = String.length a + String.length b.
Proof. induction a as [|x a IH]; [done|]. rewrite app_cons. cbn. by rewrite IH. Qed.

Lemma rev_app_app (s a b : string) :
  String.rev_app s (a +:+ b) = String.rev_app s a +:+ b.
Proof.
  revert a. induction s as [|c s IH]; intros a; [done|].
  cbn. by rewrite <-IH.
Qed.

Lemma rev_cons c (s : string) : String.rev (String c s) = String.rev s +:+ String c "".
Proof. unfold String.rev. cbn. by rewrite <-rev_app_app. Qed.

Lemma rev_app (a b : string) : String.rev (a +:+ b) = String.rev b +:+ String.rev a.
Proof.
  induction a as [|c a IH].
  - by rewrite app_nil_l, app_nil_r.
  - by rewrite app_cons, !rev_cons, IH, app_assoc.
Qed.

Lemma rev_involutive (s : string) : String.rev (String.rev s) = s.
Proof. induction s as [|c s IH]; [done|]. by rewrite rev_cons, rev_app, IH. Qed.

(** ** The cleanup pattern, position by position *)

Lemma blank_run_lstrip s : s = blank_run s +:+ Py.lstrip_by blank_char s.
Proof.
  induction s as [|c s IH]; [done|]. cbn.
  destruct (blank_char c); [|done]. by rewrite app_cons, <-IH.
Qed.

Lemma eol_split_app s eol r : eol_split s = Some (eol, r) → s = eol +:+ r.
Proof.
  destruct s as [|c s]; [done|]. cbn.
  destruct (Re.is_nl c) eqn:Hnl.
  { intros [= <- <-]. apply Ascii.eqb_eq in Hnl as ->. done. }
  destruct (is_cr c) eqn:Hcr; [|done]. destruct s as [|d s]; [done|].
  destruct (Re.is_nl d) eqn:Hd; [|done]. intros [= <- <-].
  apply Ascii.eqb_eq in Hcr as ->. apply Ascii.eqb_eq in Hd as ->. done.
Qed.

Lemma eol_split_not_blank s eol r :
  eol_split s = Some (eol, r) → Py.lstrip_by blank_char s = s.
Proof.
  destruct s as [|c s]; [done|]. cbn.
  destruct (Re.is_nl c) eqn:Hnl.
  { apply Ascii.eqb_eq in Hnl as ->. done. }
  destruct (is_cr c) eqn:Hcr; [|done]. apply Ascii.eqb_eq in Hcr as ->. done.
Qed.

Lemma consumed_app (a b : string) : Re.consumed (a +:+ b) b = a.
Proof.
  unfold Re.consumed. rewrite length_app.
  replace (String.length a + String.length b - String.length b)
    with (String.length a) by lia.
  induction a as [|c a IH]; [by destruct b|].
  rewrite app_cons. cbn. by rewrite IH.
Qed.

(** A greedy repetition before a continuation that fails on every input
    that starts in the class: giving characters back cannot help, so the
    outcome is that of the continuation after the longest run. *)
Lemma star_commits cls (k : Re.kont) s bol gs :
  (∀ b c s' gs', cls c = true → k b (String c s') gs' = None) →
  ∃ b, Re.star cls bol s gs k = k b (Py.lstrip_by cls s) gs.
Proof.
  intros Hk. revert bol. induction s as [|c s IH]; intros bol; cbn; [eauto|].
  destruct (cls c) eqn:Hc; [|eauto].
  destruct (IH (Re.is_nl c)) as [b ->].
  destruct (k b (Py.lstrip_by cls s) gs) as [res|] eqn:Hres; [eauto|].
  exists b. by rewrite Hk.
Qed.

Lemma strip_prefix_char a c s :
  Re.strip_prefix (String a "") (String c s) = if Ascii.eqb c a then Some s else None.
Proof. cbn. rewrite (Ascii.eqb_sym a c). by destruct (Ascii.eqb c a). Qed.

Lemma after_blanks_spec bol s gs :
  after_blanks bol s gs =
    match eol_split s with
    | Some (eol, r) => Some (r, eol :: gs)
    | None => None
    end.
Proof.
  unfold after_blanks, line_end. cbn [Re.run].
  destruct s as [|c s]; [done|].
  unfold CR, newline. rewrite !strip_prefix_char. unfold eol_split.
  fold (is_cr c). fold (Re.is_nl c).
  destruct (is_cr c) eqn:Hcr.
  - apply Ascii.eqb_eq in Hcr as ->.
    change (Re.is_nl "013") with false. cbv iota.
    destruct s as [|d s]; [done|].
    rewrite strip_prefix_char. fold (Re.is_nl d).
    destruct (Re.is_nl d) eqn:Hd; [|done].
    apply Ascii.eqb_eq in Hd as ->.
    change (String "013" (String "010" s)) with ((CR +:+ newline) +:+ s).
    by rewrite consumed_app.
  - destruct (Re.is_nl c) eqn:Hnl; [|done].
    apply Ascii.eqb_eq in Hnl as ->.
    change (String "010" s) with (newline +:+ s). by rewrite consumed_app.
Qed.

Lemma after_blanks_fails_on_blank b c s gs :
  blank_char c = true → after_blanks b (String c s) gs = None.
Proof.
  intros Hc. rewrite after_blanks_spec. cbn.
  destruct (Re.is_nl c) eqn:Hnl.
  { apply Ascii.eqb_eq in Hnl as ->. done. }
  destruct (is_cr c) eqn:Hcr; [|done]. apply Ascii.eqb_eq in Hcr as ->. done.
Qed.

(** The match of the cleanup pattern at a position. *)
Lemma exec_trailing_blank bol s :
  Re.exec New.trailing_blank_pattern bol s =
    match s with
    | String c s' =>
        if blank_char c then
          match eol_split (Py.lstrip_by blank_char s') with
          | Some (eol, r) =>
              Some {| Re.group0 := String c (blank_run s' +:+ eol); Re.groups := [eol] |}
          | None => None
          end
        else None
    | EmptyString => None
    end.
Proof.
  unfold Re.exec, New.trailing_blank_pattern.
  change (Re.run (Re.Seq (Re.Plus blank_char) (Re.Group line_end)) bol s []
            (λ _ rest gs, Some (rest, gs)))
    with (match s with
          | String c s' =>
              if blank_char c then Re.star blank_char (Re.is_nl c) s' [] after_blanks
              else None
          | EmptyString => None
          end).
  destruct s as [|c s']; [done|]. destruct (blank_char c); [|done].
  destruct (star_commits blank_char after_blanks s' (Re.is_nl c) [])
    as [b ->]; [by intros; apply after_blanks_fails_on_blank|].
  rewrite after_blanks_spec.
  destruct (eol_split _) as [[eol r]|] eqn:Hsplit; [|done].
  cbn [rev app]. do 2 f_equal.
  apply eol_split_app in Hsplit.
  rewrite (blank_run_lstrip s') at 1. rewrite Hsplit.
  rewrite <-app_assoc, <-app_cons. apply consumed_app.
Qed.

Lemma eol_follows_split s :
  eol_follows s =
    match eol_split (Py.lstrip_by blank_char s) with Some _ => true | None => false end.
Proof.
  induction s as [|c s IH]; [done|]. cbn [eol_follows Py.lstrip_by].
  destruct (blank_char c); [done|]. unfold eol_split.
  destruct (Re.is_nl c); [done|]. destruct (is_cr c); [|done].
  destruct s as [|d s]; [done|]. by destruct (Re.is_nl d).
Qed.

Lemma drop_trailing_blanks_at_eol s eol r :
  eol_split (Py.lstrip_by blank_char s) = Some (eol, r) →
  drop_trailing_blanks s = eol +:+ drop_trailing_blanks r.
Proof.
  induction s as [|c s IH]; [done|]. cbn [Py.lstrip_by drop_trailing_blanks].
  destruct (blank_char c) eqn:Hc.
  - intros Hsplit. rewrite eol_follows_split, Hsplit. cbn [andb]. by apply IH.
  - cbn [andb]. unfold eol_split.
    destruct (Re.is_nl c) eqn:Hnl.
    { intros [= <- <-]. apply Ascii.eqb_eq in Hnl as ->. done. }
    destruct (is_cr c) eqn:Hcr; [|done].
    destruct s as [|d s]; [done|]. destruct (Re.is_nl d) eqn:Hd; [|done].
    intros [= <- <-]. apply Ascii.eqb_eq in Hd as ->.
    apply Ascii.eqb_eq in Hcr as ->. done.
Qed.

Lemma drop_app (a b : string) : Py.drop (String.length a) (a +:+ b) = b.
Proof. induction a as [|c a IH]; [by destruct b|]. by rewrite app_cons. Qed.

Lemma drop_matched s eol r :
  eol_split (Py.lstrip_by blank_char s) = Some (eol, r) →
  Py.drop (String.length (blank_run s +:+ eol)) s = r.
Proof.
  intros Hsplit. apply eol_split_app in Hsplit.
  rewrite (blank_run_lstrip s) at 2. rewrite Hsplit, <-app_assoc. apply drop_app.
Qed.

Lemma drop_zero s : Py.drop 0 s = s.
Proof. by destruct s. Qed.

(** The scan of the cleanup pattern, resumed [skip] characters further on,
    drops the blanks before line terminators and nothing else. *)
Lemma cleanup_scan bol skip s :
  Re.splice (λ m, Re.group m 1)
    (Re.pieces_from New.trailing_blank_pattern bol skip s)
  = drop_trailing_blanks (Py.drop skip s).
Proof.
  revert bol skip. induction s as [|c s IH]; intros bol skip.
  - destruct skip; [|done]. cbn [Re.pieces_from]. by rewrite exec_trailing_blank.
  - destruct skip as [|n].
    + cbn [Re.pieces_from]. rewrite exec_trailing_blank, drop_zero.
      cbn [drop_trailing_blanks].
      destruct (blank_char c) eqn:Hc.
      * destruct (eol_split (Py.lstrip_by blank_char s)) as [[eol r]|] eqn:Hsplit.
        -- cbn [Re.group0 String.length Re.splice Re.group Re.groups
                lookup list_lookup default from_option id].
           rewrite IH, (drop_matched _ _ _ Hsplit).
           rewrite eol_follows_split, Hsplit. cbn [andb].
           symmetry. by apply drop_trailing_blanks_at_eol.
        -- cbn [Re.splice]. rewrite IH, drop_zero.
           by rewrite eol_follows_split, Hsplit.
      * cbn [Re.splice andb]. by rewrite IH, drop_zero.
    + cbn [Re.pieces_from Py.drop]. apply IH.
Qed.

Lemma cleanup_drops_trailing_blanks text :
  New._cleanup_content text = drop_trailing_blanks text.
Proof.
  unfold New._cleanup_content, Re.sub, Re.pieces.
  by rewrite cleanup_scan, drop_zero.
Qed.

(** ** Trailing blanks of a line *)





Lemma rstrip_by_nil p : Py.rstrip_by p "" = "".
Proof. reflexivity. Qed.








(** ** Lines *)














(** ** The two scripts on the same template *)

Lemma conditional_replacement_same fs (self : expander) fragments headers is_uber
    base_path m std P :
  New.conditional_replacement fs self fragments headers is_uber base_path m std P
  = Old.conditional_replacement fs self fragments headers is_uber base_path m std P.
Proof. reflexivity. Qed.




Lemma new_replace_tag_visible text tag replacement :
  blank replacement = false →
  New._replace_tag text tag replacement = Py.replace tag replacement text.
Proof. unfold blank, New._replace_tag. by intros ->. Qed.


Lemma new_conditional_step_eq fs (self : expander) fragments headers is_uber base_path
    text std P m :
  New.conditional_step fs self fragments headers is_uber base_path
    (Some (text, std, P)) m
  = '(replacement, std', P') ←
      New.conditional_replacement fs self fragments headers is_uber base_path m std P;
    Some (New._replace_tag text (Re.group m 0) replacement, std', P').
Proof. reflexivity. Qed.

Lemma old_conditional_step_eq fs (self : expander) fragments headers is_uber base_path
    text std P m :
  Old.conditional_step fs self fragments headers is_uber base_path
    (Some (text, std, P)) m
  = '(replacement, std', P') ←
      Old.conditional_replacement fs self fragments headers is_uber base_path m std P;
    Some (Py.replace (Re.group m 0) replacement text, std', P').
Proof. reflexivity. Qed.



Lemma new_process_template_unfold fs depth text fragments headers is_uber std
    base_path P :
  New.process_template fs depth text fragments headers is_uber std base_path P
  = New.process_template_body fs
      (match depth with
       | S d => New.process_template fs d
       | O => λ _ _ _ _ _ _ _, None
       end) fragments headers is_uber base_path text std P.
Proof. by destruct depth. Qed.

Lemma old_process_template_unfold fs depth text fragments headers is_uber std
    base_path P :
  Old.process_template fs depth text fragments headers is_uber std base_path P
  = Old.process_template_body fs
      (match depth with
       | S d => Old.process_template fs d
       | O => λ _ _ _ _ _ _ _, None
       end) fragments headers is_uber base_path text std P.
Proof. by destruct depth. Qed.




(** ** Modular mode: no template is read, no path is marked *)

Lemma new_modular_reference (fs : filesystem) (fragments : fragment_store)
    (headers : header_registry) (base_path : option string) (name : string) :
  ∃ text, ∀ fs' self std P,
    New.reference_replacement fs' self fragments headers false base_path name std P
    = Some (text, std, P).
Proof.
  unfold New.reference_replacement. rewrite andb_false_r.
  destruct (bool_decide (name = "ASSERT_MACRO")); [eauto|].
  destruct (fragments !! name); [eauto|].
  destruct (header_file headers name), base_path; eauto.
Qed.

Lemma new_modular_replacement_files fs fs' (self self' : expander) fragments headers
    base_path m std P :
  New.conditional_replacement fs self fragments headers false base_path m std P
  = New.conditional_replacement fs' self' fragments headers false base_path m std P.
Proof.
  unfold New.conditional_replacement. cbv zeta. rewrite !andb_false_r.
  destruct (_ && _ && _); [done|].
  destruct (Py.startswith _ "@STDCAPTURE"); [done|].
  destruct (Py.startswith _ "@"); [|done].
  destruct (new_modular_reference fs fragments headers base_path
    (Py.drop 1 (Py.strip (Re.group m 3)))) as [text Htext].
  by rewrite !Htext.
Qed.

(** The step of the loop over the conditional tags, in modular mode: the
    set of processed templates stays, and the include set gains at most one
    spelling, which is bracketed. *)
Lemma new_modular_replacement fs (self : expander) fragments headers base_path m std P :
  ∃ replacement std',
    New.conditional_replacement fs self fragments headers false base_path m std P
    = Some (replacement, std', P)
    ∧ match std with
      | None => std' = None
      | Some S0 =>
          ∃ S', std' = Some S' ∧ S0 ⊆ S'
                ∧ ∀ x, x ∈ S' → x ∈ S0 ∨ ∃ y, x = "<" +:+ y +:+ ">"
      end.
Proof.
  unfold New.conditional_replacement. cbv zeta. rewrite !andb_false_r.
  destruct (_ && _ && _).
  { eexists _, _. split; [done|].
    destruct std as [S|]; [|by destruct (Re.search _ _)].
    destruct (Re.search _ _) as [im|]; cbn [fmap option_fmap option_map].
    - eexists. split; [done|]. split; [set_solver|].
      intros x [Hx|Hx]%elem_of_union; [by left|]. right.
      apply elem_of_singleton in Hx as ->. eauto.
    - exists S. split; [done|]. split; [done|]. by left. }
  assert (match std with
          | None => std = None
          | Some S0 => ∃ S', std = Some S' ∧ S0 ⊆ S'
                             ∧ ∀ x, x ∈ S' → x ∈ S0 ∨ ∃ y, x = "<" +:+ y +:+ ">"
          end) as Hstd.
  { destruct std as [S|]; [|done]. exists S. split; [done|]. split; [done|]. by left. }
  destruct (Py.startswith _ "@STDCAPTURE").
  { exists "", std. split; [done|exact Hstd]. }
  destruct (Py.startswith _ "@").
  2:{ eexists _, std. split; [done|exact Hstd]. }
  destruct (new_modular_reference fs fragments headers base_path
    (Py.drop 1 (Py.strip (Re.group m 3)))) as [text Htext].
  exists text, std. split; [apply Htext|done].
Qed.

Lemma new_modular_loop (fs : filesystem) (self : expander) fragments headers base_path
    ms text std P :
  ∃ out std',
    (∀ fs' self',
       fold_left (New.conditional_step fs' self' fragments headers false base_path) ms
         (Some (text, std, P)) = Some (out, std', P))
    ∧ match std with
      | None => std' = None
      | Some S0 =>
          ∃ S', std' = Some S' ∧ S0 ⊆ S'
                ∧ ∀ x, x ∈ S' → x ∈ S0 ∨ ∃ y, x = "<" +:+ y +:+ ">"
      end.
Proof.
  revert text std. induction ms as [|m ms IH]; intros text std; cbn [fold_left].
  - exists text, std. split; [done|]. destruct std as [S|]; [|done].
    exists S. split; [done|]. split; [done|]. by left.
  - destruct (new_modular_replacement fs self fragments headers base_path m std P)
      as (r & std1 & Heq & Hstd1).
    destruct (IH (New._replace_tag text (Re.group m 0) r) std1)
      as (out & std' & Hloop & Hstd').
    exists out, std'. split.
    + intros fs' self'. rewrite new_conditional_step_eq.
      rewrite (new_modular_replacement_files fs' fs self' self), Heq.
      cbn [mbind option_bind]. apply Hloop.
    + destruct std as [S|]; [|by subst std1].
      destruct Hstd1 as (S1 & -> & Hsub1 & Hshape1).
      destruct Hstd' as (S' & -> & Hsub' & Hshape').
      exists S'. split; [done|]. split; [set_solver|].
      intros x Hx. destruct (Hshape' x Hx) as [Hx1|?]; [|by right]. by apply Hshape1.
Qed.

(** X1. In modular mode the expansion reads no file and inlines nothing:
    its result is the same for every file system and every allowed nesting,
    it always returns, and the set of processed templates comes back as it
    was given. *)
Theorem modular_expansion_reads_nothing (fs fs' : filesystem) (depth depth' : nat)
    (text : string) (fragments : fragment_store) (headers : header_registry)
    (std : option (gset string)) (base_path : option string)
    (P : option (gset string)) :
  New.process_template fs depth text fragments headers false std base_path P
  = New.process_template fs' depth' text fragments headers false std base_path P
  ∧ ∃ out std',
      New.process_template fs depth text fragments headers false std base_path P
      = Some (out, std', default ∅ P).
Proof.
  rewrite !new_process_template_unfold.
  unfold New.process_template_body, New.conditional_pass. cbv zeta.
  destruct (new_modular_loop fs (λ _ _ _ _ _ _ _, None) fragments headers base_path
    (Re.finditer conditional_pattern text) text std (default ∅ P))
    as (out & std' & Hloop & _).
  rewrite !Hloop. cbn [mbind option_bind]. split; [done|]. eauto.
Qed.

(** X2. In modular mode with an include set, the set that comes back holds
    every spelling it held before, and every spelling it gained has the
    form of a bracketed include, [<...>]: quoted spellings are never
    captured.  Without an include set, none comes back. *)
Theorem modular_include_set_grows (fs : filesystem) (depth : nat) (text : string)
    (fragments : fragment_store) (headers : header_registry)
    (base_path : option string) (P : option (gset string)) :
  (∀ S, ∃ out S',
     New.process_template fs depth text fragments headers false (Some S) base_path P
     = Some (out, Some S', default ∅ P)
     ∧ S ⊆ S'
     ∧ ∀ x, x ∈ S' → x ∈ S ∨ ∃ y, x = "<" +:+ y +:+ ">")
  ∧ ∃ out,
      New.process_template fs depth text fragments headers false None base_path P
      = Some (out, None, default ∅ P).
Proof.
  split.
  - intros S. rewrite new_process_template_unfold.
    unfold New.process_template_body, New.conditional_pass. cbv zeta.
    destruct (new_modular_loop fs (λ _ _ _ _ _ _ _, None) fragments headers base_path
      (Re.finditer conditional_pattern text) text (Some S) (default ∅ P))
      as (out & std' & Hloop & S' & -> & Hsub & Hshape).
    rewrite Hloop. cbn [mbind option_bind]. eauto 10.
  - rewrite new_process_template_unfold.
    unfold New.process_template_body, New.conditional_pass. cbv zeta.
    destruct (new_modular_loop fs (λ _ _ _ _ _ _ _, None) fragments headers base_path
      (Re.finditer conditional_pattern text) text None (default ∅ P))
      as (out & std' & Hloop & ->).
    rewrite Hloop. cbn [mbind option_bind]. eauto.
Qed.

(** ** Uber mode: the include set stays, only header paths are marked *)

Local Ltac stays P := (eexists _, P; split; [reflexivity|set_solver]).

Lemma new_uber_reference fs (fragments : fragment_store) (headers : header_registry)
    self base_path n name std P :
  inlines_below fragments headers base_path n self →
  size (header_paths base_path headers ∖ P) ≤ n →
  ∃ out P',
    New.reference_replacement fs self fragments headers true base_path name std P
    = Some (out, std, P')
    ∧ P ⊆ P' ∧ P' ⊆ P ∪ header_paths base_path headers.
Proof.
  intros Hself Hn. unfold New.reference_replacement.
  destruct (bool_decide _ && _); [stays P|].
  destruct (bool_decide _); [stays P|].
  destruct (fragments !! name); [stays P|].
  destruct (header_file headers name) as [file|] eqn:Hfile; [|stays P].
  destruct base_path as [base|]; [|stays P].
  cbv zeta. case_bool_decide as Hin; [stays P|].
  pose proof (header_file_path base headers name file Hfile) as Hpath.
  destruct (read_file fs _) as [inner|e].
  - destruct (Hself inner std (P ∪ {[template_path_of base name file]}))
      as (out & P' & -> & Hsub & Hsup).
    + eapply Nat.lt_le_trans; [|exact Hn]. by apply unvisited_decreases.
    + exists out, P'. split; [done|]. set_solver.
  - eexists _, _. split; [done|]. set_solver.
Qed.

Lemma new_uber_conditional fs (fragments : fragment_store) (headers : header_registry)
    self base_path n m std P :
  inlines_below fragments headers base_path n self →
  size (header_paths base_path headers ∖ P) ≤ n →
  ∃ out P',
    New.conditional_replacement fs self fragments headers true base_path m std P
    = Some (out, std, P')
    ∧ P ⊆ P' ∧ P' ⊆ P ∪ header_paths base_path headers.
Proof.
  intros Hself Hn. unfold New.conditional_replacement. cbv zeta.
  rewrite !andb_false_r.
  destruct (Py.startswith _ "@STDCAPTURE"); [stays P|].
  destruct (Py.startswith _ "@"); [|stays P].
  by eapply new_uber_reference.
Qed.

Lemma new_uber_loop fs (fragments : fragment_store) (headers : header_registry)
    self base_path n ms text std P0 P :
  inlines_below fragments headers base_path n self →
  size (header_paths base_path headers ∖ P0) ≤ n →
  P0 ⊆ P → P ⊆ P0 ∪ header_paths base_path headers →
  ∃ out P',
    fold_left (New.conditional_step fs self fragments headers true base_path) ms
      (Some (text, std, P)) = Some (out, std, P')
    ∧ P0 ⊆ P' ∧ P' ⊆ P0 ∪ header_paths base_path headers.
Proof.
  intros Hself Hn. revert text P.
  induction ms as [|m ms IH]; intros text P Hsub Hsup; cbn [fold_left]; [by eauto|].
  rewrite new_conditional_step_eq.
  destruct (new_uber_conditional fs fragments headers self base_path n m std P)
    as (r & P1 & -> & Hsub1 & Hsup1); [done| |].
  { etrans; [|exact Hn]. apply subseteq_size. set_solver. }
  cbn [mbind option_bind]. apply IH; set_solver.
Qed.

Lemma new_uber_body fs (fragments : fragment_store) (headers : header_registry)
    self base_path n text std P :
  inlines_below fragments headers base_path n self →
  size (header_paths base_path headers ∖ default ∅ P) ≤ n →
  ∃ out P',
    New.process_template_body fs self fragments headers true base_path text std P
    = Some (out, std, P')
    ∧ default ∅ P ⊆ P' ∧ P' ⊆ default ∅ P ∪ header_paths base_path headers.
Proof.
  intros Hself Hn. unfold New.process_template_body, New.conditional_pass.
  destruct (new_uber_loop fs fragments headers self base_path n
    (Re.finditer conditional_pattern text) text std (default ∅ P) (default ∅ P))
    as (out & P' & -> & Hsub & Hsup); [done|done|done|set_solver|].
  cbn [mbind option_bind]. eauto.
Qed.

Lemma new_uber_process_template fs depth text fragments headers std base_path P :
  size (header_paths base_path headers ∖ default ∅ P) ≤ depth →
  ∃ out P',
    New.process_template fs depth text fragments headers true std base_path P
    = Some (out, std, P')
    ∧ default ∅ P ⊆ P' ∧ P' ⊆ default ∅ P ∪ header_paths base_path headers.
Proof.
  revert text std P. induction depth as [|d IH]; intros text std P Hn;
    cbn [New.process_template].
  - eapply new_uber_body; [|exact Hn]. intros ??? Hlt. lia.
  - eapply new_uber_body; [|exact Hn]. intros t s Q Hlt.
    destruct (IH t s (Some Q)) as (out & P' & Heq & HP); [|by eauto].
    change (size (header_paths base_path headers ∖ Q) ≤ d). lia.
Qed.

(** X3. In uber mode the expansion never writes to the include set: it
    comes back as it was given.  The set of processed templates only
    grows, and only by template paths of registered headers. *)
Theorem uber_expansion_keeps_include_set (fs : filesystem) (extra : nat)
    (text : string) (fragments : fragment_store) (headers : header_registry)
    (std : option (gset string)) (base_path : option string)
    (P : option (gset string)) :
  ∃ out P',
    New.process_template fs (length headers + extra) text fragments headers true
      std base_path P = Some (out, std, P')
    ∧ default ∅ P ⊆ P'
    ∧ P' ⊆ default ∅ P ∪ header_paths base_path headers.
Proof.
  apply new_uber_process_template.
  etrans; [apply unvisited_bound|lia].
Qed.

(** ** What the cleanup removes and what it leaves *)

Lemma drop_trailing_blanks_non_blanks s :
  non_blanks (drop_trailing_blanks s) = non_blanks s.
Proof.
  induction s as [|c s IH]; [done|]. cbn [drop_trailing_blanks non_blanks].
  destruct (blank_char c) eqn:Hc; cbn [andb].
  - destruct (eol_follows s); [done|]. cbn [non_blanks]. by rewrite Hc.
  - cbn [non_blanks]. by rewrite Hc, IH.
Qed.

Lemma drop_trailing_blanks_length s :
  String.length (drop_trailing_blanks s) ≤ String.length s.
Proof.
  induction s as [|c s IH]; [done|]. cbn [drop_trailing_blanks].
  destruct (blank_char c && eol_follows s); cbn [String.length]; lia.
Qed.

Lemma drop_trailing_blanks_head_nl s d r :
  drop_trailing_blanks s = String d r → Re.is_nl d = true → eol_follows s = true.
Proof.
  induction s as [|c s IH]; [done|]. cbn [drop_trailing_blanks eol_follows].
  destruct (blank_char c) eqn:Hc; cbn [andb].
  - destruct (eol_follows s) eqn:Hs; [done|]. intros [= <- _] Hd.
    unfold blank_char, Re.is_nl in *.
    destruct (Ascii.eqb_spec c "010"); [subst; discriminate|done].
  - intros [= <- _] ->. done.
Qed.

Lemma drop_trailing_blanks_clean s :
  blank_before_newline (drop_trailing_blanks s) = false.
Proof.
  induction s as [|c s IH]; [done|]. cbn [drop_trailing_blanks].
  destruct (blank_char c && eol_follows s) eqn:Hdrop; [done|].
  cbn [blank_before_newline]. rewrite IH, orb_false_r.
  destruct (blank_char c) eqn:Hc; [|done]. cbn [andb] in *.
  destruct (drop_trailing_blanks s) as [|d r] eqn:Hs; [done|].
  destruct (Re.is_nl d) eqn:Hd; [|done].
  by rewrite (drop_trailing_blanks_head_nl s d r Hs Hd) in Hdrop.
Qed.

(** X4. The cleanup removes spaces and tabs and nothing else: the other
    characters of the text come back unchanged and in the same order, and
    the result is never longer than the text. *)
Theorem cleanup_removes_only_blanks (content : string) :
  non_blanks (New._cleanup_content content) = non_blanks content
  ∧ String.length (New._cleanup_content content) ≤ String.length content.
Proof.
  rewrite cleanup_drops_trailing_blanks. split.
  - apply drop_trailing_blanks_non_blanks.
  - apply drop_trailing_blanks_length.
Qed.

(** X5. In the result of the cleanup no space or tab stands directly
    before a line feed. *)
Theorem cleanup_leaves_no_blank_before_newline (content : string) :
  blank_before_newline (New._cleanup_content content) = false.
Proof.
  rewrite cleanup_drops_trailing_blanks. apply drop_trailing_blanks_clean.
Qed.

Lemma eol_follows_blank_before_newline c s :
  no_cr s = true → blank_char c = true → eol_follows s = true →
  blank_before_newline (String c s) = true.
Proof.
  revert c. induction s as [|d s IH]; intros c Hcr Hc; [done|].
  unfold no_cr in Hcr. cbn [all_of] in Hcr. apply andb_true_iff in Hcr as [Hd Hcr].
  cbn [eol_follows]. destruct (blank_char d) eqn:Hbd.
  - intros Hs.
    change (blank_before_newline (String c (String d s)))
      with (blank_char c && Re.is_nl d || blank_before_newline (String d s)).
    rewrite (IH d Hcr Hbd Hs). apply orb_true_r.
  - apply negb_true_iff in Hd. rewrite Hd. cbn [andb]. rewrite orb_false_r.
    intros Hnl. cbn [blank_before_newline]. by rewrite Hc, Hnl.
Qed.

Lemma drop_trailing_blanks_fixed s :
  no_cr s = true → blank_before_newline s = false → drop_trailing_blanks s = s.
Proof.
  induction s as [|c s IH]; [done|]. intros Hcr Hclean.
  assert (no_cr s = true) as Hcr'.
  { unfold no_cr in *. cbn [all_of] in Hcr. by apply andb_true_iff in Hcr as [_ ?]. }
  assert (blank_before_newline s = false) as Hclean'.
  { cbn [blank_before_newline] in Hclean. by apply orb_false_iff in Hclean as [_ ?]. }
  cbn [drop_trailing_blanks].
  destruct (blank_char c && eol_follows s) eqn:Hdrop.
  - apply andb_true_iff in Hdrop as [Hc Hs].
    by rewrite (eol_follows_blank_before_newline c s Hcr' Hc Hs) in Hclean.
  - by rewrite IH.
Qed.

Lemma drop_trailing_blanks_no_cr s :
  no_cr s = true → no_cr (drop_trailing_blanks s) = true.
Proof.
  unfold no_cr. induction s as [|c s IH]; [done|]. cbn [all_of drop_trailing_blanks].
  intros [Hc Hs]%andb_true_iff.
  destruct (blank_char c && eol_follows s); [by apply IH|].
  cbn [all_of]. by rewrite Hc, IH.
Qed.

Lemma drop_trailing_blanks_changed s :
  drop_trailing_blanks s = s → blank_before_newline s = false.
Proof. intros <-. apply drop_trailing_blanks_clean. Qed.

(** X6. On a text without carriage returns the cleanup changes nothing
    exactly when no space or tab stands directly before a line feed, and
    cleaning a second time changes nothing. *)
Theorem cleanup_idempotent_without_cr (content : string)
    (Hcr : no_cr content = true) :
  (New._cleanup_content content = content ↔ blank_before_newline content = false)
  ∧ New._cleanup_content (New._cleanup_content content) = New._cleanup_content content.
Proof.
  rewrite !cleanup_drops_trailing_blanks. split.
  - split; [apply drop_trailing_blanks_changed|by apply drop_trailing_blanks_fixed].
  - apply drop_trailing_blanks_fixed.
    + by apply drop_trailing_blanks_no_cr.
    + apply drop_trailing_blanks_clean.
Qed.

Lemma cleanup_idempotent_without_cr_witness :
  let content := String "a" (String " " (String "010" (String "b" (String " " "")))) in
  no_cr content = true
  ∧ (New._cleanup_content content = content ↔ blank_before_newline content = false)
  ∧ New._cleanup_content (New._cleanup_content content) = New._cleanup_content content.
Proof.
  intros content.
  assert (no_cr content = true) as Hcr by reflexivity.
  split; [exact Hcr|].
  exact (cleanup_idempotent_without_cr content Hcr).
Defined.

(** With carriage returns a second cleanup can still find something: the
    blank between a carriage return and the line feed goes first, and only
    then does the blank before the carriage return stand before a line
    terminator. *)
Example cleanup_twice_with_cr :
  let content := String "a" (String " " (String "013" (String " " (String "010" "")))) in
  New._cleanup_content content = String "a" (String " " (String "013" (String "010" "")))
  ∧ New._cleanup_content (New._cleanup_content content)
    = String "a" (String "013" (String "010" "")).
Proof. by vm_compute. Qed.

(** ** Texts in which a tag does not occur *)

Lemma occurs_in_cons tag c s :
  occurs_in tag (String c s) = false →
  String.prefix tag (String c s) = false ∧ occurs_in tag s = false.
Proof. cbn [occurs_in]. by intros ?%orb_false_iff. Qed.

Lemma occurs_in_prefix tag s : occurs_in tag s = false → String.prefix tag s = false.
Proof. destruct s; cbn [occurs_in]; by intros [? _]%orb_false_iff. Qed.

Lemma strip_prefix_fails l s : String.prefix l s = false → Re.strip_prefix l s = None.
Proof.
  revert s. induction l as [|a l IH]; intros [|b s]; cbn; try done.
  destruct (Ascii.eqb_spec a b) as [->|Hne].
  - destruct (ascii_dec b b); [apply IH|done].
  - by destruct (ascii_dec a b).
Qed.

Lemma star_no_occurrence cls l (k : Re.kont) s bol gs :
  occurs_in l s = false →
  (∀ bol' s' gs', String.prefix l s' = false → k bol' s' gs' = None) →
  Re.star cls bol s gs k = None.
Proof.
  intros Hs Hk. revert bol Hs.
  induction s as [|c s IH]; intros bol Hs; cbn [Re.star].
  - by apply Hk, occurs_in_prefix.
  - apply occurs_in_cons in Hs as [Hp Hs].
    destruct (cls c); [rewrite (IH _ Hs)|]; by apply Hk.
Qed.

(** A scan in which the pattern matches nowhere gives the characters of the
    text and no match. *)
Lemma scan_no_match r (Q : string → Prop) :
  (∀ c s, Q (String c s) → Q s) →
  (∀ bol s, Q s → Re.exec r bol s = None) →
  ∀ s bol, Q s →
    Re.matches_of (Re.pieces_from r bol 0 s) = []
    ∧ ∀ repl, Re.splice repl (Re.pieces_from r bol 0 s) = s.
Proof.
  intros Hstep Hexec s. induction s as [|c s IH]; intros bol Hs;
    cbn [Re.pieces_from]; rewrite (Hexec _ _ Hs); [done|].
  destruct (IH (Re.is_nl c) (Hstep _ _ Hs)) as [Hm Hsp].
  cbn [Re.matches_of Re.splice]. split; [done|]. intros repl. by rewrite Hsp.
Qed.

Lemma exec_literal_first l r bol s :
  String.prefix l s = false → Re.exec (Re.Seq (Re.Lit l) r) bol s = None.
Proof. intros Hp. unfold Re.exec. cbn [Re.run]. by rewrite strip_prefix_fails. Qed.

Lemma exec_tag_line tag bol s :
  occurs_in tag s = false → Re.exec (New.tag_line_pattern tag) bol s = None.
Proof.
  intros Hs. unfold Re.exec, New.tag_line_pattern. cbn [Re.cat Re.run].
  destruct bol; [|done].
  rewrite (star_no_occurrence blank_char tag); [done|done|].
  intros bol' s' gs' Hp. by rewrite strip_prefix_fails.
Qed.

Lemma replace_from_no_occurrence old new s :
  occurs_in old s = false → Py.replace_from old new 0 s = s.
Proof.
  induction s as [|c s IH]; intros Hs; cbn [Py.replace_from].
  - by rewrite (occurs_in_prefix _ _ Hs).
  - apply occurs_in_cons in Hs as [-> Hs]. by rewrite IH.
Qed.

Lemma occurs_in_empty s : occurs_in "" s = true.
Proof. by destruct s. Qed.

(** X7. Replacing a tag in a text where the tag does not occur gives the
    text back, whether the replacement is blank or not. *)
Theorem replace_tag_absent (template_content tag_text replacement : string)
    (Habsent : occurs_in tag_text template_content = false) :
  New._replace_tag template_content tag_text replacement = template_content.
Proof.
  unfold New._replace_tag. case_bool_decide.
  - unfold Re.sub, Re.pieces.
    apply (scan_no_match (New.tag_line_pattern tag_text)
             (λ s, occurs_in tag_text s = false)); [|by auto using exec_tag_line|done].
    intros c s Hs. by apply occurs_in_cons in Hs as [_ ?].
  - unfold Py.replace. destruct tag_text as [|a tag].
    + by rewrite occurs_in_empty in Habsent.
    + by apply replace_from_no_occurrence.
Qed.

Lemma replace_tag_absent_witness :
  occurs_in "[[FOO]]" "int x; [[BAR]]" = false
  ∧ New._replace_tag "int x; [[BAR]]" "[[FOO]]" "" = "int x; [[BAR]]"
  ∧ New._replace_tag "int x; [[BAR]]" "[[FOO]]" "y" = "int x; [[BAR]]".
Proof.
  assert (occurs_in "[[FOO]]" "int x; [[BAR]]" = false) as Habsent by reflexivity.
  split; [exact Habsent|]. split.
  - exact (replace_tag_absent "int x; [[BAR]]" "[[FOO]]" "" Habsent).
  - exact (replace_tag_absent "int x; [[BAR]]" "[[FOO]]" "y" Habsent).
Defined.

(** ** Texts without tags *)

Lemma prefix_longer l x s : String.prefix l s = false → String.prefix (l +:+ x) s = false.
Proof.
  revert s. induction l as [|a l IH]; intros s; [by destruct s|].
  rewrite app_cons. destruct s as [|b s]; [done|]. cbn [String.prefix].
  destruct (ascii_dec a b); [apply IH|done].
Qed.

Lemma finditer_no_opening r l x text :
  occurs_in l text = false →
  Re.finditer (Re.Seq (Re.Lit (l +:+ x)) r) text = [].
Proof.
  intros Hs. unfold Re.finditer, Re.pieces.
  apply (scan_no_match _ (λ s, occurs_in l s = false)); [| |done].
  - intros c s H. by apply occurs_in_cons in H as [_ ?].
  - intros bol s H. by apply exec_literal_first, prefix_longer, occurs_in_prefix.
Qed.

Lemma conditional_tags_none text :
  occurs_in "[[" text = false → Re.finditer conditional_pattern text = [].
Proof. apply (finditer_no_opening _ "[[" "@"). Qed.

Lemma simple_tags_none text :
  occurs_in "[[" text = false → Re.finditer simple_pattern text = [].
Proof. apply (finditer_no_opening _ "[[" ""). Qed.

(** X8. A text in which [[[] does not occur has no tag: the new script
    returns it cleaned and the old script returns it as it is, in either
    mode and at any nesting allowance, with the include set and the
    processed templates as they were given. *)
Theorem text_without_tags (fs : filesystem) (depth : nat) (text : string)
    (fragments : fragment_store) (headers : header_registry) (is_uber : bool)
    (std : option (gset string)) (base_path : option string)
    (P : option (gset string))
    (Hnone : occurs_in "[[" text = false) :
  New.process_template fs depth text fragments headers is_uber std base_path P
  = Some (New._cleanup_content text, std, default ∅ P)
  ∧ Old.process_template fs depth text fragments headers is_uber std base_path P
    = Some (text, std, default ∅ P).
Proof.
  rewrite new_process_template_unfold, old_process_template_unfold.
  unfold New.process_template_body, Old.process_template_body,
    New.conditional_pass, Old.conditional_pass, New.simple_pass, Old.simple_pass.
  cbv zeta. rewrite (conditional_tags_none text Hnone).
  cbn [fold_left mbind option_bind].
  by rewrite (simple_tags_none text Hnone).
Qed.

Lemma text_without_tags_witness :
  occurs_in "[[" ("int a[2]; " +:+ newline) = false
  ∧ New.process_template cycle_files 0 ("int a[2]; " +:+ newline) ∅ [] true None None None
    = Some (New._cleanup_content ("int a[2]; " +:+ newline), None, ∅)
  ∧ Old.process_template cycle_files 0 ("int a[2]; " +:+ newline) ∅ [] true None None None
    = Some ("int a[2]; " +:+ newline, None, ∅).
Proof.
  assert (occurs_in "[[" ("int a[2]; " +:+ newline) = false) as Hnone
    by (vm_compute; reflexivity).
  split; [exact Hnone|].
  exact (text_without_tags cycle_files 0 ("int a[2]; " +:+ newline) ∅ [] true None None
           None Hnone).
Defined.

(** ** The expansion ends, and ends clean *)

(** X9. With as many levels of nesting as there are registered headers,
    or more, the expansion returns in either mode, whatever the files
    hold; the text it returns has no space or tab directly before a line
    feed, and the processed templates it was given are still marked. *)
Theorem expansion_returns_clean (fs : filesystem) (extra : nat) (text : string)
    (fragments : fragment_store) (headers : header_registry) (is_uber : bool)
    (std : option (gset string)) (base_path : option string)
    (P : option (gset string)) :
  ∃ out std' P',
    New.process_template fs (length headers + extra) text fragments headers is_uber
      std base_path P = Some (out, std', P')
    ∧ blank_before_newline out = false
    ∧ default ∅ P ⊆ P'.
Proof.
  destruct (new_process_template_returns fs (length headers + extra) text fragments
              headers is_uber std base_path P) as (out & std' & P' & Heq & Hsub).
  { etrans; [apply unvisited_bound|lia]. }
  exists out, std', P'. split; [done|]. split; [|done].
  rewrite new_process_template_unfold in Heq.
  unfold New.process_template_body in Heq. cbv zeta in Heq.
  destruct (New.conditional_pass _ _ _ _ _ _ _ _ _) as [[[t s] Q]|]; [|done].
  cbn [mbind option_bind] in Heq. injection Heq as <- _ _.
  rewrite cleanup_drops_trailing_blanks. apply drop_trailing_blanks_clean.
Qed.

(** ** What a run reads, writes and prints *)

















(** ** A tag on a line of its own, replaced by nothing *)

Lemma line_end_run b s gs (k : Re.kont) :
  Re.run line_end b s gs k =
    match eol_split s with
    | Some (_, r) => k true r gs
    | None => None
    end.
Proof.
  unfold line_end. cbn [Re.run].
  destruct s as [|c s]; [done|].
  unfold CR, newline. rewrite !strip_prefix_char. unfold eol_split.
  fold (is_cr c). fold (Re.is_nl c).
  destruct (is_cr c) eqn:Hcr.
  - apply Ascii.eqb_eq in Hcr as ->.
    change (Re.is_nl "013") with false. cbv iota.
    destruct s as [|d s]; [done|].
    rewrite strip_prefix_char. fold (Re.is_nl d).
    destruct (Re.is_nl d); [|done]. cbn [Re.bol_after].
    change (Re.is_nl "010") with true. by destruct (k true s gs).
  - destruct (Re.is_nl c); [|done]. cbn [Re.bol_after]. done.
Qed.

Lemma line_end_fails_on_blank b c s gs (k : Re.kont) :
  blank_char c = true → Re.run line_end b (String c s) gs k = None.
Proof.
  intros Hc. rewrite line_end_run. cbn.
  destruct (Re.is_nl c) eqn:Hnl.
  { apply Ascii.eqb_eq in Hnl as ->. done. }
  destruct (is_cr c) eqn:Hcr; [|done]. apply Ascii.eqb_eq in Hcr as ->. done.
Qed.

(** A greedy repetition before a continuation that never fails takes the
    longest run. *)
Lemma star_takes_all cls (k : Re.kont) s bol gs :
  (∀ b s' gs', k b s' gs' ≠ None) →
  ∃ b, Re.star cls bol s gs k = k b (Py.lstrip_by cls s) gs.
Proof.
  intros Hk. revert bol. induction s as [|c s IH]; intros bol; cbn; [eauto|].
  destruct (cls c) eqn:Hc; [|eauto].
  destruct (IH (Re.is_nl c)) as [b ->].
  destruct (k b (Py.lstrip_by cls s) gs) as [res|] eqn:Hres; [eauto|].
  by destruct (Hk b (Py.lstrip_by cls s) gs).
Qed.

Lemma blank_line_run b s gs :
  Re.run (Re.Opt (Re.Seq (Re.Star blank_char) line_end)) b s gs accept
  = Some (skip_blank_line s, gs).
Proof.
  cbn [Re.run].
  destruct (star_commits blank_char (λ b' s' gs', Re.run line_end b' s' gs' accept)
              s b gs) as [b' ->].
  { intros. by apply line_end_fails_on_blank. }
  rewrite line_end_run. unfold skip_blank_line.
  by destruct (eol_split _) as [[eol r]|].
Qed.

Lemma tag_tail_run b s gs :
  Re.run (Re.Seq (Re.Star blank_char)
            (Re.Seq (Re.Opt line_end)
               (Re.Opt (Re.Seq (Re.Star blank_char) line_end)))) b s gs accept
  = Some (tag_line_rest s, gs).
Proof.
  set (blank_line := Re.Opt (Re.Seq (Re.Star blank_char) line_end)).
  change (Re.star blank_char b s gs
            (λ b1 s1 gs1,
               match Re.run line_end b1 s1 gs1
                       (λ b2 s2 gs2, Re.run blank_line b2 s2 gs2 accept) with
               | Some res => Some res
               | None => Re.run blank_line b1 s1 gs1 accept
               end) = Some (tag_line_rest s, gs)).
  edestruct (star_takes_all blank_char) as [b' ->].
  { intros b1 s1 gs1. unfold blank_line. rewrite line_end_run.
    destruct (eol_split s1) as [[eol r]|]; by rewrite blank_line_run. }
  unfold blank_line, tag_line_rest. rewrite line_end_run. cbv zeta.
  destruct (eol_split _) as [[eol r]|]; by rewrite blank_line_run.
Qed.

(** The match of the tag-line pattern at a position, for a tag that does
    not start with a blank. *)
Lemma exec_tag_line_at c t bol s :
  blank_char c = false →
  Re.exec (New.tag_line_pattern (String c t)) bol s =
    if bol then
      match Re.strip_prefix (String c t) (Py.lstrip_by blank_char s) with
      | Some s' => Some {| Re.group0 := Re.consumed s (tag_line_rest s'); Re.groups := [] |}
      | None => None
      end
    else None.
Proof.
  intros Hc. unfold Re.exec, New.tag_line_pattern. cbn [Re.cat].
  set (tail := Re.Seq (Re.Star blank_char)
                 (Re.Seq (Re.Opt line_end)
                    (Re.Opt (Re.Seq (Re.Star blank_char) line_end)))).
  change (match (if bol then
                   Re.star blank_char bol s []
                     (λ b1 s1 gs1,
                        match Re.strip_prefix (String c t) s1 with
                        | Some s2 => Re.run tail (Re.bol_after b1 (String c t)) s2 gs1 accept
                        | None => None
                        end)
                 else None) with
          | Some (rest, gs) => Some {| Re.group0 := Re.consumed s rest; Re.groups := rev gs |}
          | None => None
          end = if bol then
                  match Re.strip_prefix (String c t) (Py.lstrip_by blank_char s) with
                  | Some s' =>
                      Some {| Re.group0 := Re.consumed s (tag_line_rest s'); Re.groups := [] |}
                  | None => None
                  end
                else None).
  destruct bol; [|done].
  edestruct (star_commits blank_char) as [b' ->].
  { intros b1 d s1 gs1 Hd. cbn [Re.strip_prefix].
    destruct (Ascii.eqb_spec c d) as [->|]; [congruence|done]. }
  destruct (Re.strip_prefix _ _) as [s2|]; [|done].
  unfold tail. by rewrite tag_tail_run.
Qed.

(** *** The scan around a match *)

Lemma unmatched_cons c s : unmatched (String c s) = inl c :: unmatched s.
Proof. done. Qed.

Lemma splice_unmatched repl s ps :
  Re.splice repl (unmatched s ++ ps) = s +:+ Re.splice repl ps.
Proof.
  induction s as [|c s IH]; [by rewrite app_nil_l|].
  rewrite unmatched_cons, app_cons. cbn [app Re.splice]. by rewrite IH.
Qed.

Lemma matches_unmatched s ps : Re.matches_of (unmatched s ++ ps) = Re.matches_of ps.
Proof. induction s as [|c s IH]; [done|]. by rewrite unmatched_cons. Qed.

Lemma bol_after_app bol (a b : string) :
  Re.bol_after bol (a +:+ b) = Re.bol_after (Re.bol_after bol a) b.
Proof.
  revert bol. induction a as [|c a IH]; intros bol; [by rewrite app_nil_l|].
  rewrite app_cons. apply IH.
Qed.

Lemma bol_after_nonempty bol bol' c s :
  Re.bol_after bol (String c s) = Re.bol_after bol' (String c s).
Proof. done. Qed.

(** The scan resumes behind a match. *)
Lemma pieces_skip r (a b : string) bol :
  Re.pieces_from r bol (String.length a) (a +:+ b)
  = Re.pieces_from r (Re.bol_after bol a) 0 b.
Proof.
  revert bol. induction a as [|c a IH]; intros bol; [by rewrite app_nil_l|].
  rewrite app_cons. cbn [String.length Re.pieces_from Re.bol_after]. apply IH.
Qed.

Lemma pieces_match r bol (G rest : string) m :
  Re.exec r bol (G +:+ rest) = Some m → Re.group0 m = G → G ≠ "" →
  Re.pieces_from r bol 0 (G +:+ rest)
  = inr m :: Re.pieces_from r (Re.bol_after bol G) 0 rest.
Proof.
  intros Hexec Hm HG. destruct G as [|c G]; [done|].
  rewrite app_cons in *. cbn [Re.pieces_from]. rewrite Hexec, Hm.
  cbn [String.length Re.bol_after]. by rewrite pieces_skip.
Qed.

(** The scan over a stretch of text in which no match starts. *)
Lemma scan_prefix r (pre X : string) bol :
  (∀ a b bol', pre = a +:+ b → b ≠ "" → Re.exec r bol' (b +:+ X) = None) →
  Re.pieces_from r bol 0 (pre +:+ X)
  = unmatched pre ++ Re.pieces_from r (Re.bol_after bol pre) 0 X.
Proof.
  revert bol. induction pre as [|c pre IH]; intros bol Hnone; [by rewrite app_nil_l|].
  rewrite app_cons. cbn [Re.pieces_from].
  rewrite <-app_cons, (Hnone "" (String c pre) bol) by done.
  rewrite unmatched_cons. cbn [app Re.bol_after]. f_equal.
  apply IH. intros a b bol' -> Hb. by apply (Hnone (String c a) b bol').
Qed.

(** *** Where the tag cannot start *)

Lemma occurs_in_app_r tag (a b : string) :
  occurs_in tag (a +:+ b) = false → occurs_in tag b = false.
Proof.
  induction a as [|c a IH]; [by rewrite app_nil_l|].
  rewrite app_cons. by intros [_ ?]%occurs_in_cons; auto.
Qed.

Lemma strip_prefix_app (l x : string) : Re.strip_prefix l (l +:+ x) = Some x.
Proof.
  induction l as [|a l IH]; [by rewrite app_nil_l|].
  rewrite app_cons. cbn [Re.strip_prefix]. by rewrite Ascii.eqb_refl.
Qed.

Lemma lstrip_app_all p (a b : string) :
  all_of p a = true → Py.lstrip_by p (a +:+ b) = Py.lstrip_by p b.
Proof.
  induction a as [|c a IH]; [by rewrite app_nil_l|].
  rewrite app_cons. cbn [all_of Py.lstrip_by].
  intros [-> Ha]%andb_true_iff. by apply IH.
Qed.

(** A stretch of text that a line feed ends keeps that line feed when the
    blanks at its start go. *)
Lemma lstrip_ends_nl (b X : string) :
  Re.bol_after false b = true →
  Py.lstrip_by blank_char (b +:+ X) = Py.lstrip_by blank_char b +:+ X
  ∧ Re.bol_after false (Py.lstrip_by blank_char b) = true.
Proof.
  induction b as [|c b IH]; [done|].
  rewrite app_cons. cbn [Py.lstrip_by Re.bol_after].
  destruct (blank_char c) eqn:Hc; [|by rewrite app_cons].
  assert (Re.is_nl c = false) as ->.
  { destruct (Re.is_nl c) eqn:Hnl; [|done]. apply Ascii.eqb_eq in Hnl as ->. done. }
  apply IH.
Qed.

(** A tag without line feed that starts in a stretch ended by a line feed
    lies within the stretch. *)
Lemma prefix_within tag (b X : string) :
  no_nl tag = true → Re.bol_after false b = true →
  String.prefix tag (b +:+ X) = true → String.prefix tag b = true.
Proof.
  revert b. induction tag as [|t tag IH]; intros b Hnl Hb; [by destruct b|].
  destruct b as [|d b]; [done|]. rewrite app_cons. cbn [String.prefix].
  unfold no_nl in Hnl. cbn [all_of] in Hnl. apply andb_true_iff in Hnl as [Ht Hnl].
  destruct (ascii_dec t d) as [->|]; [|done].
  destruct b as [|e b].
  - cbn [Re.bol_after] in Hb. by rewrite Hb in Ht.
  - apply IH; [done|]. exact Hb.
Qed.

Lemma suffix_lstrip p (s : string) : ∃ a, s = a +:+ Py.lstrip_by p s.
Proof.
  induction s as [|c s [a IH]]; [by exists ""|]. cbn [Py.lstrip_by].
  destruct (p c); [|by exists ""]. exists (String c a). by rewrite app_cons, <-IH.
Qed.

Lemma tag_line_not_before c t (pre X : string) a b bol :
  blank_char c = false → no_nl (String c t) = true →
  occurs_in (String c t) pre = false → Re.bol_after true pre = true →
  pre = a +:+ b → b ≠ "" →
  Re.exec (New.tag_line_pattern (String c t)) bol (b +:+ X) = None.
Proof.
  intros Hc Hnl Hpre Hbol -> Hb. rewrite exec_tag_line_at by done.
  destruct bol; [|done].
  assert (Re.bol_after false b = true) as Hend.
  { rewrite bol_after_app in Hbol. destruct b as [|d b]; [done|]. exact Hbol. }
  destruct (lstrip_ends_nl b X Hend) as [-> Hend'].
  rewrite strip_prefix_fails; [done|].
  destruct (String.prefix (String c t) (Py.lstrip_by blank_char b +:+ X)) eqn:Hp; [|done].
  apply prefix_within in Hp; [|done..].
  destruct (suffix_lstrip blank_char b) as [a' Hb'].
  rewrite Hb', <-app_assoc in Hpre.
  apply occurs_in_app_r, occurs_in_prefix in Hpre. congruence.
Qed.

Lemma skip_blank_line_suffix s : ∃ gap, s = gap +:+ skip_blank_line s.
Proof.
  unfold skip_blank_line.
  destruct (eol_split _) as [[eol r]|] eqn:Hsplit; [|by exists ""].
  apply eol_split_app in Hsplit. destruct (suffix_lstrip blank_char s) as [a Hs].
  exists (a +:+ eol). by rewrite app_assoc, <-Hsplit.
Qed.

Lemma eol_split_eol eol rest :
  eol = newline ∨ eol = CR +:+ newline → eol_split (eol +:+ rest) = Some (eol, rest).
Proof. by intros [->| ->]. Qed.

Lemma tag_line_rest_line trail eol rest :
  all_of blank_char trail = true → eol = newline ∨ eol = CR +:+ newline →
  tag_line_rest (trail +:+ eol +:+ rest) = skip_blank_line rest.
Proof.
  intros Htrail Heol. unfold tag_line_rest. cbv zeta.
  rewrite lstrip_app_all by done.
  rewrite (eol_split_not_blank _ eol rest) by by apply eol_split_eol.
  by rewrite eol_split_eol.
Qed.

(** X13. A tag on a line of its own that is replaced by a blank text goes
    with its line: the blanks before and after it and the line terminator,
    and the next line too when that one is blank.  Here the tag starts
    with a character other than a blank, holds no line feed and occurs
    nowhere else in the text. *)
Theorem blank_replacement_drops_line (pre indent trail eol rest replacement : string)
    (c : ascii) (t : string) :
  let tag := String c t in
  Py.strip replacement = "" →
  blank_char c = false → no_nl tag = true →
  occurs_in tag pre = false → occurs_in tag rest = false →
  Re.bol_after true pre = true →
  all_of blank_char indent = true → all_of blank_char trail = true →
  eol = newline ∨ eol = CR +:+ newline →
  New._replace_tag (pre +:+ indent +:+ tag +:+ trail +:+ eol +:+ rest) tag replacement
  = pre +:+ skip_blank_line rest.
Proof.
  intros tag Hblank Hc Hnl Hpre Hrest Hbol Hindent Htrail Heol.
  unfold New._replace_tag. rewrite bool_decide_eq_true_2 by done.
  unfold Re.sub, Re.pieces.
  rewrite scan_prefix by (intros a b bol'; by apply tag_line_not_before).
  rewrite splice_unmatched, Hbol. f_equal.
  destruct (skip_blank_line_suffix rest) as [gap Hgap].
  set (G := indent +:+ tag +:+ trail +:+ eol +:+ gap).
  assert (indent +:+ tag +:+ trail +:+ eol +:+ rest = G +:+ skip_blank_line rest) as HX.
  { unfold G. rewrite !app_assoc. by rewrite <-Hgap. }
  assert (G ≠ "") as HG.
  { unfold G, tag. intros Heq. apply (f_equal String.length) in Heq.
    rewrite !length_app in Heq. cbn [String.length] in Heq. lia. }
  rewrite HX.
  rewrite (pieces_match _ true G (skip_blank_line rest)
             {| Re.group0 := G; Re.groups := [] |}); [|  |done|done].
  - cbn [Re.splice]. rewrite app_nil_l.
    apply (scan_no_match (New.tag_line_pattern tag) (λ s, occurs_in tag s = false)).
    + intros d s Hs. by apply occurs_in_cons in Hs as [_ ?].
    + intros bol s Hs. by apply exec_tag_line.
    + rewrite Hgap in Hrest. by apply occurs_in_app_r in Hrest.
  - rewrite <-HX. unfold tag. rewrite exec_tag_line_at by done.
    rewrite lstrip_app_all by done.
    assert (Py.lstrip_by blank_char (String c t +:+ trail +:+ eol +:+ rest)
            = String c t +:+ trail +:+ eol +:+ rest) as ->.
    { rewrite app_cons. cbn [Py.lstrip_by]. by rewrite Hc. }
    rewrite strip_prefix_app, tag_line_rest_line by done.
    do 2 f_equal. fold tag. rewrite HX. apply consumed_app.
Qed.

Lemma blank_replacement_drops_line_witness :
  New._replace_tag
    ("int a;" +:+ newline +:+ "  " +:+ "[[FOO]]" +:+ " " +:+ newline
       +:+ (" " +:+ newline +:+ "int b;"))
    "[[FOO]]" ""
  = ("int a;" +:+ newline) +:+ "int b;".
Proof.
  assert (Py.strip "" = "") as Hblank by reflexivity.
  assert (blank_char "[" = false) as Hc by reflexivity.
  assert (no_nl "[[FOO]]" = true) as Hnl by reflexivity.
  assert (occurs_in "[[FOO]]" ("int a;" +:+ newline) = false) as Hpre
    by (vm_compute; reflexivity).
  assert (occurs_in "[[FOO]]" (" " +:+ newline +:+ "int b;") = false) as Hrest
    by (vm_compute; reflexivity).
  assert (Re.bol_after true ("int a;" +:+ newline) = true) as Hbol
    by (vm_compute; reflexivity).
  assert (all_of blank_char "  " = true) as Hindent by reflexivity.
  assert (all_of blank_char " " = true) as Htrail by reflexivity.
  assert (newline = newline ∨ newline = CR +:+ newline) as Heol by (left; reflexivity).
  pose proof (blank_replacement_drops_line ("int a;" +:+ newline) "  " " " newline
    (" " +:+ newline +:+ "int b;") "" "[" "[FOO]]"
    Hblank Hc Hnl Hpre Hrest Hbol Hindent Htrail Heol) as H.
  rewrite !app_assoc in H. exact H.
Defined.

(** ** One simple tag, from template to result *)

Lemma occurs_in_longer l x s : occurs_in l s = false → occurs_in (l +:+ x) s = false.
Proof.
  induction s as [|c s IH]; intros Hs.
  - cbn [occurs_in]. rewrite prefix_longer; [done|]. by apply occurs_in_prefix.
  - apply occurs_in_cons in Hs as [Hp Hs]. cbn [occurs_in].
    by rewrite prefix_longer, IH.
Qed.

(** A tag starts with its first character. *)
Lemma occurs_in_skip p a l (n Y : string) :
  all_of p n = true → p a = false →
  occurs_in (String a l) (n +:+ Y) = occurs_in (String a l) Y.
Proof.
  intros Hn Ha. induction n as [|c n IH]; [by rewrite app_nil_l|].
  cbn [all_of] in Hn. apply andb_true_iff in Hn as [Hc Hn].
  rewrite app_cons. cbn [occurs_in String.prefix].
  destruct (ascii_dec a c) as [->|]; [congruence|]. by apply IH.
Qed.

Lemma prefix_nil s : String.prefix "" s = true.
Proof. by destruct s. Qed.

Lemma opening_not_in_pre x (pre Z a b : string) :
  occurs_in "[[" (pre +:+ "[") = false → pre = a +:+ b → b ≠ "" →
  String.prefix ("[[" +:+ x) (b +:+ String "[" Z) = false.
Proof.
  intros Hpre -> Hb. apply prefix_longer.
  rewrite app_assoc in Hpre. apply occurs_in_app_r, occurs_in_prefix in Hpre.
  destruct b as [|c [|d b]]; [done|..]; revert Hpre;
    rewrite ?app_cons, ?app_nil_l; cbn [String.prefix];
    destruct (ascii_dec "[" c); try done.
  destruct (ascii_dec "[" d); [|done]. by rewrite !prefix_nil.
Qed.

Lemma name_char_not_bracket c : name_char c = true → c ≠ "["%char ∧ c ≠ "@"%char
                                                      ∧ c ≠ "]"%char.
Proof. intros Hc. by repeat split; intros ->. Qed.

(** No conditional tag starts in a simple tag. *)
Lemma conditional_tags_none_at name rest :
  name ≠ "" → all_of name_char name = true → occurs_in "[[" rest = false →
  occurs_in "[[@" (simple_tag name +:+ rest) = false.
Proof.
  intros Hne Hname Hrest. destruct name as [|n0 name]; [done|].
  pose proof Hname as Hall.
  cbn [all_of] in Hname. apply andb_true_iff in Hname as [Hn0 Hname].
  destruct (name_char_not_bracket n0 Hn0) as (H1 & H2 & H3).
  unfold simple_tag.
  change (("[[" +:+ String n0 name +:+ "]]") +:+ rest)
    with (String "[" (String "[" ((String n0 name +:+ "]]") +:+ rest))).
  rewrite app_assoc.
  change (occurs_in "[[@" (String "[" (String "[" (String n0 name +:+ "]]" +:+ rest))))
    with (String.prefix "[[@" (String "[" (String "[" (String n0 (name +:+ "]]" +:+ rest))))
          || (String.prefix "[[@" (String "[" (String n0 (name +:+ "]]" +:+ rest)))
              || occurs_in "[[@" (String n0 name +:+ "]]" +:+ rest))).
  rewrite (occurs_in_skip name_char) by done.
  change ("]]" +:+ rest) with (String "]" (String "]" rest)).
  cbn [occurs_in String.prefix].
  change "[[@" with ("[[" +:+ "@"). rewrite (occurs_in_longer "[[" "@" rest Hrest).
  change ("[[" +:+ "@") with "[[@".
  destruct (ascii_dec "[" "["); [|done].
  destruct (ascii_dec "@" n0); [congruence|].
  destruct (ascii_dec "[" n0); [congruence|].
  destruct (ascii_dec "[" "]"); done.
Qed.

Lemma conditional_tags_none_around pre name rest :
  name ≠ "" → all_of name_char name = true →
  occurs_in "[[" (pre +:+ "[") = false → occurs_in "[[" rest = false →
  Re.finditer conditional_pattern (pre +:+ simple_tag name +:+ rest) = [].
Proof.
  intros Hne Hname Hpre Hrest. unfold Re.finditer, Re.pieces.
  rewrite scan_prefix, matches_unmatched.
  - apply (scan_no_match conditional_pattern (λ s, occurs_in "[[@" s = false)).
    + intros c s Hs. by apply occurs_in_cons in Hs as [_ ?].
    + intros bol s Hs. by apply exec_literal_first, occurs_in_prefix.
    + by apply conditional_tags_none_at.
  - intros a b bol' Ha Hb. apply exec_literal_first.
    unfold simple_tag.
    change (b +:+ ("[[" +:+ name +:+ "]]") +:+ rest)
      with (b +:+ String "[" (("[" +:+ name +:+ "]]") +:+ rest)).
    by apply (opening_not_in_pre "@" pre _ a b).
Qed.

(** The match of the simple pattern at a simple tag. *)
Lemma exec_simple_tag bol name rest :
  name ≠ "" → all_of name_char name = true →
  Re.exec simple_pattern bol (simple_tag name +:+ rest)
  = Some {| Re.group0 := simple_tag name; Re.groups := [name] |}.
Proof.
  intros Hne Hname. destruct name as [|n0 name]; [done|].
  pose proof Hname as Hall.
  cbn [all_of] in Hname. apply andb_true_iff in Hname as [Hn0 Hname].
  unfold Re.exec, simple_pattern, simple_tag. cbn [Re.cat].
  change (("[[" +:+ String n0 name +:+ "]]") +:+ rest)
    with (String "[" (String "[" (String n0 (name +:+ "]]") +:+ rest))).
  rewrite app_cons, app_assoc.
  set (text := String "[" (String "[" (String n0 (name +:+ "]]" +:+ rest)))).
  set (inner := String n0 (name +:+ "]]" +:+ rest)).
  change (Re.run (Re.Seq (Re.Lit "[[") (Re.Seq (Re.Group (Re.Plus name_char)) (Re.Lit "]]")))
            bol text [] (λ _ r gs, Some (r, gs)))
    with (if name_char n0 then
            Re.star name_char (Re.is_nl n0) (name +:+ "]]" +:+ rest) []
              (λ b s gs,
                 match Re.strip_prefix "]]" s with
                 | Some s' => Some (s', Re.consumed inner s :: gs)
                 | None => None
                 end)
          else None).
  rewrite Hn0.
  edestruct (star_commits name_char) as [b' ->].
  { intros b c s gs Hc. destruct (name_char_not_bracket c Hc) as (_ & _ & Hc').
    cbn [Re.strip_prefix]. destruct (Ascii.eqb_spec "]" c); [congruence|done]. }
  rewrite lstrip_app_all by done.
  change (Py.lstrip_by name_char ("]]" +:+ rest)) with ("]]" +:+ rest).
  rewrite strip_prefix_app. cbn [rev app]. f_equal.
  assert (Re.consumed inner ("]]" +:+ rest) = String n0 name) as ->.
  { unfold inner. rewrite <-app_cons. apply consumed_app. }
  f_equal. unfold text.
  change (String "[" (String "[" (String n0 (name +:+ "]]" +:+ rest))))
    with ("[[" +:+ String n0 name +:+ "]]" +:+ rest).
  rewrite <-!app_assoc. apply consumed_app.
Qed.

Lemma simple_tag_nonempty name : simple_tag name ≠ "".
Proof. done. Qed.

Lemma bracket_not_in_pre x (pre Z : string) :
  occurs_in "[[" (pre +:+ "[") = false →
  ∀ a b, pre = a +:+ b → b ≠ "" →
    String.prefix ("[[" +:+ x) (b +:+ String "[" Z) = false.
Proof. intros Hpre a b. by apply opening_not_in_pre. Qed.

Lemma simple_tags_one pre name rest :
  name ≠ "" → all_of name_char name = true →
  occurs_in "[[" (pre +:+ "[") = false → occurs_in "[[" rest = false →
  Re.finditer simple_pattern (pre +:+ simple_tag name +:+ rest)
  = [{| Re.group0 := simple_tag name; Re.groups := [name] |}].
Proof.
  intros Hne Hname Hpre Hrest. unfold Re.finditer, Re.pieces.
  rewrite scan_prefix, matches_unmatched.
  - rewrite (pieces_match _ _ (simple_tag name) rest _ (exec_simple_tag _ name rest Hne Hname))
      by done.
    cbn [Re.matches_of]. f_equal.
    apply (scan_no_match simple_pattern (λ s, occurs_in "[[" s = false)); [| |done].
    + intros c s Hs. by apply occurs_in_cons in Hs as [_ ?].
    + intros bol s Hs. unfold simple_pattern. cbn [Re.cat].
      by apply exec_literal_first, occurs_in_prefix.
  - intros a b bol' Ha Hb. unfold simple_pattern. cbn [Re.cat].
    apply exec_literal_first. unfold simple_tag.
    change (b +:+ ("[[" +:+ name +:+ "]]") +:+ rest)
      with (b +:+ String "[" (("[" +:+ name +:+ "]]") +:+ rest)).
    by apply (opening_not_in_pre "" pre _ a b).
Qed.

(** *** [str.replace] around the first occurrence *)

Lemma replace_from_skip old new (a b : string) :
  Py.replace_from old new (String.length a) (a +:+ b) = Py.replace_from old new 0 b.
Proof.
  induction a as [|c a IH]; [by rewrite app_nil_l|].
  rewrite app_cons. cbn [String.length Py.replace_from]. apply IH.
Qed.

Lemma replace_from_prefix old new (pre X : string) :
  (∀ a b, pre = a +:+ b → b ≠ "" → String.prefix old (b +:+ X) = false) →
  Py.replace_from old new 0 (pre +:+ X) = pre +:+ Py.replace_from old new 0 X.
Proof.
  induction pre as [|c pre IH]; intros Hnone; [by rewrite !app_nil_l|].
  rewrite !app_cons. cbn [Py.replace_from].
  rewrite <-app_cons, (Hnone "" (String c pre)) by done.
  f_equal. apply IH. intros a b -> Hb. by apply (Hnone (String c a) b).
Qed.

Lemma prefix_app (l x : string) : String.prefix l (l +:+ x) = true.
Proof.
  induction l as [|a l IH]; [by destruct x|].
  rewrite app_cons. cbn [String.prefix]. by destruct (ascii_dec a a).
Qed.

Lemma replace_first c t new (pre rest : string) :
  let old := String c t in
  (∀ a b, pre = a +:+ b → b ≠ "" → String.prefix old (b +:+ old +:+ rest) = false) →
  occurs_in old rest = false →
  Py.replace old new (pre +:+ old +:+ rest) = pre +:+ new +:+ rest.
Proof.
  intros old Hpre Hrest. unfold Py.replace. unfold old at 1.
  rewrite replace_from_prefix by done. f_equal.
  unfold old at 2. rewrite app_cons. cbn [Py.replace_from].
  rewrite <-app_cons. fold old. rewrite prefix_app. f_equal.
  replace (String.length old - 1) with (String.length t) by (cbn; lia).
  by rewrite replace_from_skip, replace_from_no_occurrence.
Qed.

Lemma replace_simple_tag pre name rest new :
  occurs_in "[[" (pre +:+ "[") = false → occurs_in "[[" rest = false →
  Py.replace (simple_tag name) new (pre +:+ simple_tag name +:+ rest)
  = pre +:+ new +:+ rest.
Proof.
  intros Hpre Hrest.
  change (simple_tag name) with (String "[" ("[" +:+ name +:+ "]]")).
  apply replace_first.
  - intros a b Ha Hb.
    change (String "[" ("[" +:+ name +:+ "]]")) with ("[[" +:+ (name +:+ "]]")) at 1.
    rewrite app_cons. by apply (opening_not_in_pre _ pre _ a b).
  - change (String "[" ("[" +:+ name +:+ "]]")) with ("[[" +:+ (name +:+ "]]")).
    by apply occurs_in_longer.
Qed.

(** X14. A template whose only tag is one simple tag that names a fragment
    with a text that is not blank: the new script returns the template
    with the fragment's lines, joined by line feeds, in the place of the
    tag, and cleaned; the old script returns the same text without the
    cleaning.  The include set and the processed templates come back as
    given.  That the tag is the only one is asked as: no [[[] occurs
    after the tag, and none in the text before it with a [[] added at its
    end. *)
Theorem simple_tag_expands (fs : filesystem) (depth : nat) (pre name rest : string)
    (lines : list string) (fragments : fragment_store) (headers : header_registry)
    (is_uber : bool) (std : option (gset string)) (base_path : option string)
    (P : option (gset string)) :
  name ≠ "" → all_of name_char name = true →
  occurs_in "[[" (pre +:+ "[") = false → occurs_in "[[" rest = false →
  fragments !! name = Some lines →
  blank (Py.join newline lines) = false →
  New.process_template fs depth (pre +:+ simple_tag name +:+ rest) fragments headers
    is_uber std base_path P
  = Some (New._cleanup_content (pre +:+ Py.join newline lines +:+ rest), std, default ∅ P)
  ∧ Old.process_template fs depth (pre +:+ simple_tag name +:+ rest) fragments headers
      is_uber std base_path P
    = Some (pre +:+ Py.join newline lines +:+ rest, std, default ∅ P).
Proof.
  intros Hne Hname Hpre Hrest Hfrag Hvisible.
  rewrite new_process_template_unfold, old_process_template_unfold.
  unfold New.process_template_body, Old.process_template_body,
    New.conditional_pass, Old.conditional_pass, New.simple_pass, Old.simple_pass.
  cbv zeta. rewrite conditional_tags_none_around by done.
  cbn [fold_left mbind option_bind].
  rewrite simple_tags_one by done. cbn [fold_left].
  unfold New.simple_step, New.simple_replacement, Old.simple_step.
  cbn [Re.group Re.group0 Re.groups lookup list_lookup default from_option id].
  rewrite Hfrag, new_replace_tag_visible by done.
  by rewrite replace_simple_tag.
Qed.

Lemma simple_tag_expands_witness :
  New.process_template cycle_files 0
    (("int a[2]; " +:+ newline) +:+ simple_tag "FOO" +:+ (newline +:+ "int b;"))
    {["FOO" := ["int f();"; "int g();"]]} [] false None None None
  = Some (New._cleanup_content
            (("int a[2]; " +:+ newline) +:+ Py.join newline ["int f();"; "int g();"]
               +:+ (newline +:+ "int b;")),
          None, ∅)
  ∧ Old.process_template cycle_files 0
      (("int a[2]; " +:+ newline) +:+ simple_tag "FOO" +:+ (newline +:+ "int b;"))
      {["FOO" := ["int f();"; "int g();"]]} [] false None None None
    = Some (("int a[2]; " +:+ newline) +:+ Py.join newline ["int f();"; "int g();"]
              +:+ (newline +:+ "int b;"),
            None, ∅).
Proof.
  assert ("FOO" ≠ "") as Hne by discriminate.
  assert (all_of name_char "FOO" = true) as Hname by reflexivity.
  assert (occurs_in "[[" (("int a[2]; " +:+ newline) +:+ "[") = false) as Hpre
    by (vm_compute; reflexivity).
  assert (occurs_in "[[" (newline +:+ "int b;") = false) as Hrest
    by (vm_compute; reflexivity).
  assert (({["FOO" := ["int f();"; "int g();"]]} : fragment_store) !! "FOO"
          = Some ["int f();"; "int g();"]) as Hfrag by (vm_compute; reflexivity).
  assert (blank (Py.join newline ["int f();"; "int g();"]) = false) as Hvisible
    by (vm_compute; reflexivity).
  exact (simple_tag_expands cycle_files 0 ("int a[2]; " +:+ newline) "FOO"
           (newline +:+ "int b;") ["int f();"; "int g();"]
           {["FOO" := ["int f();"; "int g();"]]} [] false None None None
           Hne Hname Hpre Hrest Hfrag Hvisible).
Defined.

(** ** The old script: the expansion ends too *)

Lemma old_uber_loop fs (fragments : fragment_store) (headers : header_registry)
    self base_path n ms text std P0 P :
  inlines_below fragments headers base_path n self →
  size (header_paths base_path headers ∖ P0) ≤ n →
  P0 ⊆ P → P ⊆ P0 ∪ header_paths base_path headers →
  ∃ out P',
    fold_left (Old.conditional_step fs self fragments headers true base_path) ms
      (Some (text, std, P)) = Some (out, std, P')
    ∧ P0 ⊆ P' ∧ P' ⊆ P0 ∪ header_paths base_path headers.
Proof.
  intros Hself Hn. revert text P.
  induction ms as [|m ms IH]; intros text P Hsub Hsup; cbn [fold_left]; [by eauto|].
  rewrite old_conditional_step_eq, <-conditional_replacement_same.
  destruct (new_uber_conditional fs fragments headers self base_path n m std P)
    as (r & P1 & -> & Hsub1 & Hsup1); [done| |].
  { etrans; [|exact Hn]. apply subseteq_size. set_solver. }
  cbn [mbind option_bind]. apply IH; set_solver.
Qed.

Lemma old_uber_body fs (fragments : fragment_store) (headers : header_registry)
    self base_path n text std P :
  inlines_below fragments headers base_path n self →
  size (header_paths base_path headers ∖ default ∅ P) ≤ n →
  ∃ out P',
    Old.process_template_body fs self fragments headers true base_path text std P
    = Some (out, std, P')
    ∧ default ∅ P ⊆ P' ∧ P' ⊆ default ∅ P ∪ header_paths base_path headers.
Proof.
  intros Hself Hn. unfold Old.process_template_body, Old.conditional_pass.
  destruct (old_uber_loop fs fragments headers self base_path n
    (Re.finditer conditional_pattern text) text std (default ∅ P) (default ∅ P))
    as (out & P' & -> & Hsub & Hsup); [done|done|done|set_solver|].
  cbn [mbind option_bind]. eauto.
Qed.

Lemma old_uber_process_template fs depth text fragments headers std base_path P :
  size (header_paths base_path headers ∖ default ∅ P) ≤ depth →
  ∃ out P',
    Old.process_template fs depth text fragments headers true std base_path P
    = Some (out, std, P')
    ∧ default ∅ P ⊆ P' ∧ P' ⊆ default ∅ P ∪ header_paths base_path headers.
Proof.
  revert text std P. induction depth as [|d IH]; intros text std P Hn;
    rewrite old_process_template_unfold.
  - eapply old_uber_body; [|exact Hn]. intros ??? Hlt. lia.
  - eapply old_uber_body; [|exact Hn]. intros t s Q Hlt.
    destruct (IH t s (Some Q)) as (out & P' & Heq & HP); [|by eauto].
    change (size (header_paths base_path headers ∖ Q) ≤ d). lia.
Qed.

Lemma old_modular_loop fs (self : expander) fragments headers base_path ms text std P :
  ∃ out std',
    fold_left (Old.conditional_step fs self fragments headers false base_path) ms
      (Some (text, std, P)) = Some (out, std', P).
Proof.
  revert text std. induction ms as [|m ms IH]; intros text std; cbn [fold_left];
    [by eauto|].
  rewrite old_conditional_step_eq, <-conditional_replacement_same.
  destruct (new_modular_replacement fs self fragments headers base_path m std P)
    as (r & std1 & -> & _).
  cbn [mbind option_bind]. apply IH.
Qed.

(** X15. The old script's expansion returns as well, in either mode and
    whatever the files hold, once it may nest as deep as there are
    registered headers.  The processed templates only grow, and only by
    template paths of registered headers; in uber mode the include set
    comes back as given, and in modular mode no path is marked. *)
Theorem old_expansion_returns (fs : filesystem) (extra : nat) (text : string)
    (fragments : fragment_store) (headers : header_registry) (is_uber : bool)
    (std : option (gset string)) (base_path : option string)
    (P : option (gset string)) :
  ∃ out std' P',
    Old.process_template fs (length headers + extra) text fragments headers is_uber
      std base_path P = Some (out, std', P')
    ∧ default ∅ P ⊆ P'
    ∧ P' ⊆ default ∅ P ∪ header_paths base_path headers
    ∧ (if is_uber then std' = std else P' = default ∅ P).
Proof.
  destruct is_uber.
  - destruct (old_uber_process_template fs (length headers + extra) text fragments
                headers std base_path P) as (out & P' & Heq & Hsub & Hsup).
    { etrans; [apply unvisited_bound|lia]. }
    by exists out, std, P'.
  - rewrite old_process_template_unfold.
    unfold Old.process_template_body, Old.conditional_pass. cbv zeta.
    edestruct (old_modular_loop fs) as (out & std' & ->).
    cbn [mbind option_bind]. eexists _, std', _. split; [done|].
    split; [done|]. split; [set_solver|done].
Qed.
